(** * ts-serverless: entity envelope, pagination, repository/service policy
      and error handling, embedded from the TypeScript sources under [src/lib].

    JavaScript numbers that the code uses as counters, pages and versions are
    integers here ([Z]); a division whose result is rounded by [Math.ceil] is
    carried out in [Q].  [undefined] is [None]; values whose [null] is told
    apart from [undefined] by the code get a constructor of their own.
    Calls to [nanoid()] and [new Date()] read an oracle indexed by a counter
    kept in the state, so that a run can be replayed. *)

From stdpp Require Import base gmap strings list.
From Stdlib Require Import ZArith QArith Qround Lia.

Local Open Scope string_scope.
Local Open Scope Z_scope.
Local Open Scope list_scope.
Set Warnings "-register-all".

(* ===================================================================== *)
(** ** JavaScript values and truthiness *)
(* ===================================================================== *)

Module Js.

(** The part of [unknown] that the library stores without looking inside. *)
Inductive value :=
| VUndefined
| VNull
| VBool (b : bool)
| VNum (z : Z)
| VStr (s : string).

(** [x || d] and [if (x)] on an optional number: [undefined] and [0] are falsy. *)
Definition truthy_num (o : option Z) : bool :=
  match o with
  | Some z => negb (z =? 0)
  | None => false
  end.

Definition or_num (o : option Z) (d : Z) : Z :=
  if truthy_num o then default d o else d.

(** The same on an optional string: [undefined] and the empty string are falsy. *)
Definition truthy_str (o : option string) : bool :=
  match o with
  | Some s => negb (String.eqb s "")
  | None => false
  end.

Definition truthy_bool (o : option bool) : bool := default false o.

(** A key of an object literal that is spread over defaults: absent, or
    present with a value that may be [undefined]. *)
Inductive key (A : Type) :=
| Absent
| Present (v : option A).
Arguments Absent {A}.
Arguments Present {A} _.

(** [{ k: dflt, ...arg }.k]: a present key wins, also when it holds
    [undefined]. *)
Definition spread {A} (dflt : A) (k : key A) : option A :=
  match k with
  | Absent => Some dflt
  | Present v => v
  end.

(** A number that [Math.ceil(a / b)] can return on integer arguments. *)
Inductive num :=
| Fin (z : Z)
| PosInf
| NegInf
| NaN.

(** [Math.ceil(a / b)] *)
Definition ceil_div (a b : Z) : num :=
  if b =? 0 then
    if a =? 0 then NaN else if 0 <? a then PosInf else NegInf
  else Fin (Qceiling (inject_Z a / inject_Z b)).

(** [p < n] and [p === n] for an integer [p] *)
Definition lt_num (p : Z) (n : num) : bool :=
  match n with
  | Fin z => p <? z
  | PosInf => true
  | NegInf | NaN => false
  end.

Definition eq_num (p : Z) (n : num) : bool :=
  match n with
  | Fin z => p =? z
  | _ => false
  end.

End Js.

(* ===================================================================== *)
(** ** types.ts: the shared data model *)
(* ===================================================================== *)

Module Types.
Import Js.

(** Branded strings; the brand exists only at compile time. *)
Abbreviation EntityId := string (only parsing).
Abbreviation UserId := string (only parsing).
Abbreviation TraceId := string (only parsing).

(** A metadata object, [Record<string, unknown>]. *)
Abbreviation obj := (gmap string value) (only parsing).

(** Objects are held by reference: a location in the heap of the state. *)
Definition loc := nat.

(** An optional [Date] field that the code compares with both [undefined]
    and [null]. *)
Inductive optdate :=
| DUndefined
| DNull
| DDate (ms : Z).

(** [Partial<BaseEntity>] *)
Record EntityData := {
  d_id : option EntityId;
  d_createdAt : option Z;
  d_updatedAt : option Z;
  d_createdBy : option UserId;
  d_updatedBy : option UserId;
  d_version : option Z;
  d_deletedAt : optdate;
  d_metadata : option loc
}.

Record PaginationOptions := {
  po_page : option Z;
  po_limit : option Z;
  po_offset : option Z;
  po_cursor : option string
}.

Record PageInfo := {
  pi_page : Z;
  pi_limit : Z;
  pi_total : Z;
  pi_hasNext : bool;
  pi_hasPrev : bool
}.

Record PaginatedResult (A : Type) := {
  pr_data : list A;
  pr_pagination : PageInfo
}.
Arguments pr_data {A} _.
Arguments pr_pagination {A} _.

Record SearchQuery := {
  sq_query : option string;
  sq_fields : option (list string);
  sq_fuzzy : option bool;
  sq_limit : option Z;
  sq_offset : option Z
}.

Record SearchResult (A : Type) := {
  sr_data : list A;
  sr_total : Z
}.
Arguments sr_data {A} _.
Arguments sr_total {A} _.

Record CreateOptions := {
  co_skipValidation : option bool;
  co_skipEvents : option bool;
  co_auditTrail : option bool
}.

Record UpdateOptions := {
  uo_create : CreateOptions;
  uo_optimisticLocking : option bool;
  uo_partial : option bool
}.

Record DeleteOptions := {
  do_soft : option bool;
  do_skipEvents : option bool;
  do_auditTrail : option bool;
  do_cascade : option bool
}.

Record FindOptions := {
  fo_include : option (list string);
  fo_exclude : option (list string);
  fo_withDeleted : option bool;
  fo_forUpdate : option bool
}.

Inductive SortDirection := ASC | DESC.

Record SortCriteria := {
  sc_field : string;
  sc_direction : SortDirection
}.

Inductive FilterOperator :=
| op_eq | op_ne | op_gt | op_gte | op_lt | op_lte
| op_like | op_ilike | op_startsWith | op_endsWith | op_contains
| op_in | op_notIn | op_isNull | op_isNotNull
| op_between.

Record FilterCondition := {
  fc_field : string;
  fc_operator : FilterOperator;
  fc_value : option value;
  fc_values : option (list value)
}.

Inductive Logic := AND | OR.

Inductive FilterCriteria :=
  mkCriteria (conditions : option (list FilterCondition))
             (logic : option Logic)
             (groups : option (list FilterCriteria)).

Definition conditions (c : FilterCriteria) : option (list FilterCondition) :=
  let 'mkCriteria cs _ _ := c in cs.
Definition logic (c : FilterCriteria) : option Logic :=
  let 'mkCriteria _ l _ := c in l.
Definition groups (c : FilterCriteria) : option (list FilterCriteria) :=
  let 'mkCriteria _ _ g := c in g.

(** The object literal [{}] at type [FilterCriteria]. *)
Definition emptyCriteria : FilterCriteria := mkCriteria None None None.

(** [ListOptions extends FindOptions, PaginationOptions] *)
Record ListOptions := {
  lo_find : FindOptions;
  lo_pagination : PaginationOptions;
  lo_sort : option (list SortCriteria);
  lo_filter : option FilterCriteria;
  lo_search : option SearchQuery
}.

Record ErrorContext := {
  ec_traceId : TraceId;
  ec_operation : option string;
  ec_entityType : option string;
  ec_entityId : option EntityId;
  ec_userId : option UserId;
  ec_tenantId : option string;
  ec_metadata : option (list (string * value))
}.

Record ValidationIssue := {
  vi_field : string;
  vi_message : string;
  vi_code : string;
  vi_value : option value
}.

(** [ApiResponse<never>]: an error response never has [data]. *)
Record ApiResponse := {
  ar_success : bool;
  ar_error : option string;
  ar_message : option string;
  ar_timestamp : Z;
  ar_traceId : TraceId
}.

(** The [details] objects that response.ts builds. *)
Inductive Details :=
| DetailsIssues (issues : list ValidationIssue)
| DetailsRetryAfter (retryAfter : Z).

Record ApiError := {
  ae_code : string;
  ae_message : string;
  ae_details : option Details;
  ae_traceId : TraceId
}.

Record AuditTrail := {
  at_operation : string;
  at_entityId : EntityId;
  at_timestamp : Z;
  at_traceId : TraceId;
  at_userId : option UserId;
  at_metadata : option loc
}.

(** The object that [logError] hands to [console.error]. *)
Record LogData := {
  ld_timestamp : Z;
  ld_level : string;
  ld_name : string;
  ld_code : string;
  ld_message : string;
  ld_statusCode : Z;
  ld_traceId : TraceId;
  ld_context : option ErrorContext
}.

End Types.

(* ===================================================================== *)
(** ** The environment of synchronous code: heap, console, oracles *)
(* ===================================================================== *)

Module Env.
Import Js Types.

Record World := {
  heap : list obj;
  console : list LogData;
  tick : nat
}.

Definition St (A : Type) : Type := World -> A * World.

Definition ret {A} (a : A) : St A := fun w => (a, w).

Definition bind {A B} (m : St A) (k : A -> St B) : St B :=
  fun w => let '(a, w1) := m w in k a w1.

Declare Scope st_scope.
Delimit Scope st_scope with st.
Notation "'let*' x ':=' m 'in' k" := (bind m (fun x => k))
  (at level 10, x name, m at level 100, k at level 200) : st_scope.

Section Oracles.
(** What the n-th read of the id generator and of the clock returns. *)
Variable nanoid : nat -> string.
Variable clock : nat -> Z.

Definition advance (w : World) : World :=
  {| heap := heap w; console := console w; tick := S (tick w) |}.

(** [nanoid()] *)
Definition freshId : St string := fun w => (nanoid (tick w), advance w).

(** [new Date()] *)
Definition newDate : St Z := fun w => (clock (tick w), advance w).

(** helpers.ts [generateTraceId], [getCurrentTimestamp] *)
Definition generateTraceId : St string := freshId.
Definition getCurrentTimestamp : St Z := newDate.
End Oracles.

(** An object literal or a spread copy: a new location holding [o]. *)
Definition alloc (o : obj) : St loc :=
  fun w => (length (heap w),
            {| heap := heap w ++ [o]; console := console w; tick := tick w |}).

(** An in-place update of the object at [l]. *)
Definition modify (l : loc) (f : obj -> obj) : St unit :=
  fun w => (tt,
            {| heap := match heap w !! l with
                       | Some o => <[l := f o]> (heap w)
                       | None => heap w
                       end;
               console := console w; tick := tick w |}).

Definition deref (l : loc) : St obj :=
  fun w => (default ∅ (heap w !! l), w).

(** [console.error] *)
Definition consoleError (d : LogData) : St unit :=
  fun w => (tt, {| heap := heap w; console := console w ++ [d]; tick := tick w |}).

End Env.

(* ===================================================================== *)
(** ** query/pagination.ts and the two helpers of utils/helpers.ts *)
(* ===================================================================== *)

Module Pagination.
Import Js Types.

(** helpers.ts [calculateOffset] *)
Definition calculateOffset (page limit : Z) : Z := (page - 1) * limit.

(** helpers.ts [calculateTotalPages] *)
Definition calculateTotalPages (total limit : Z) : num := ceil_div total limit.

Record PaginationMeta := {
  pm_page : Z;
  pm_limit : Z;
  pm_total : Z;
  pm_totalPages : num;
  pm_offset : Z;
  pm_hasNext : bool;
  pm_hasPrev : bool;
  pm_isFirstPage : bool;
  pm_isLastPage : bool
}.

(** [PaginationHelper.getPaginationMeta] *)
Definition getPaginationMeta (page limit total : Z) : PaginationMeta :=
  let totalPages := calculateTotalPages total limit in
  let offset := calculateOffset page limit in
  {| pm_page := page;
     pm_limit := limit;
     pm_total := total;
     pm_totalPages := totalPages;
     pm_offset := offset;
     pm_hasNext := lt_num page totalPages;
     pm_hasPrev := 1 <? page;
     pm_isFirstPage := page =? 1;
     pm_isLastPage := eq_num page totalPages |}.

(** The [pagination] object that [createPagination] and the repository's
    [list] both assemble. *)
Definition pageInfo (page limit total : Z) : PageInfo :=
  let totalPages := ceil_div total limit in
  {| pi_page := page;
     pi_limit := limit;
     pi_total := total;
     pi_hasNext := lt_num page totalPages;
     pi_hasPrev := 1 <? page |}.

(** [PaginationHelper.createPagination] *)
Definition createPagination {A} (data : list A) (total : Z)
    (options : PaginationOptions) : PaginatedResult A :=
  let page := or_num (po_page options) 1 in
  let limit := or_num (po_limit options) 10 in
  {| pr_data := data; pr_pagination := pageInfo page limit total |}.

(** [options.f && options.f < k]: the comparison is reached only for a truthy [f]. *)
Definition present_and_lt (f : option Z) (k : Z) : bool :=
  truthy_num f && (default 0 f <? k).

Definition present_and_gt (f : option Z) (k : Z) : bool :=
  truthy_num f && (k <? default 0 f).

(** [PaginationHelper.validatePagination]: [inl msg] is [throw new Error(msg)]. *)
Definition validatePagination (options : PaginationOptions) : string + unit :=
  if present_and_lt (po_page options) 1 then inl "Page must be greater than 0"
  else if present_and_lt (po_limit options) 1 then inl "Limit must be greater than 0"
  else if present_and_gt (po_limit options) 100 then inl "Limit cannot exceed 100"
  else inr tt.

Record CursorPage (A : Type) := {
  cp_data : list A;
  cp_nextCursor : option string;
  cp_hasPrev : bool
}.
Arguments cp_data {A} _.
Arguments cp_nextCursor {A} _.
Arguments cp_hasPrev {A} _.

(** [createCursorPagination]; [data.slice(0, -1)] keeps all but the last item. *)
Definition createCursorPagination {A} (data : list A) (getCursor : A -> string)
    (limit : Z) : CursorPage A :=
  let hasMore := limit <? Z.of_nat (length data) in
  let items := if hasMore then take (length data - 1) data else data in
  let nextCursor :=
    if hasMore && (0 <? Z.of_nat (length items))
    then getCursor <$> last items
    else None in
  {| cp_data := items; cp_nextCursor := nextCursor; cp_hasPrev := false |}.

End Pagination.

(* ===================================================================== *)
(** ** base/entity.ts *)
(* ===================================================================== *)

Module Entity.
Import Js Types Env.
Local Open Scope st_scope.

(** The fields of an [Entity] instance.  [metadata] is a reference. *)
Record Entity := {
  e_id : EntityId;
  e_createdAt : Z;
  e_updatedAt : Z;
  e_createdBy : option UserId;
  e_updatedBy : option UserId;
  e_version : Z;
  e_deletedAt : optdate;
  e_metadata : option loc
}.

Definition set_updatedBy (u : option UserId) (e : Entity) : Entity :=
  {| e_id := e_id e; e_createdAt := e_createdAt e; e_updatedAt := e_updatedAt e;
     e_createdBy := e_createdBy e; e_updatedBy := u; e_version := e_version e;
     e_deletedAt := e_deletedAt e; e_metadata := e_metadata e |}.

Definition set_updatedAt (t : Z) (e : Entity) : Entity :=
  {| e_id := e_id e; e_createdAt := e_createdAt e; e_updatedAt := t;
     e_createdBy := e_createdBy e; e_updatedBy := e_updatedBy e;
     e_version := e_version e;
     e_deletedAt := e_deletedAt e; e_metadata := e_metadata e |}.

Definition set_version (v : Z) (e : Entity) : Entity :=
  {| e_id := e_id e; e_createdAt := e_createdAt e; e_updatedAt := e_updatedAt e;
     e_createdBy := e_createdBy e; e_updatedBy := e_updatedBy e; e_version := v;
     e_deletedAt := e_deletedAt e; e_metadata := e_metadata e |}.

Definition set_deletedAt (d : optdate) (e : Entity) : Entity :=
  {| e_id := e_id e; e_createdAt := e_createdAt e; e_updatedAt := e_updatedAt e;
     e_createdBy := e_createdBy e; e_updatedBy := e_updatedBy e;
     e_version := e_version e;
     e_deletedAt := d; e_metadata := e_metadata e |}.

Definition set_metadata (m : option loc) (e : Entity) : Entity :=
  {| e_id := e_id e; e_createdAt := e_createdAt e; e_updatedAt := e_updatedAt e;
     e_createdBy := e_createdBy e; e_updatedBy := e_updatedBy e;
     e_version := e_version e;
     e_deletedAt := e_deletedAt e; e_metadata := m |}.

(** The default argument [data = {}] of the constructor. *)
Definition noData : EntityData :=
  {| d_id := None; d_createdAt := None; d_updatedAt := None;
     d_createdBy := None; d_updatedBy := None; d_version := None;
     d_deletedAt := DUndefined; d_metadata := None |}.

(** The mutations of an entity, as a caller can issue them. *)
Inductive Mutation :=
| MarkAsUpdated (userId : option UserId)
| SoftDelete (userId : option UserId)
| Restore (userId : option UserId)
| AddMetadata (key : string) (v : value)
| RemoveMetadata (key : string).

Section Methods.
Variable nanoid : nat -> string.
Variable clock : nat -> Z.

(** [constructor(data)]: every [x || fallback] evaluates the fallback only
    when [x] is falsy; [data.metadata] is stored as it is, not copied. *)
Definition new_Entity (data : EntityData) : St Entity :=
  let* id := (if truthy_str (d_id data) then ret (default "" (d_id data))
              else freshId nanoid) in
  let* createdAt := (match d_createdAt data with
                     | Some t => ret t
                     | None => newDate clock
                     end) in
  let* updatedAt := (match d_updatedAt data with
                     | Some t => ret t
                     | None => newDate clock
                     end) in
  let* metadata := (match d_metadata data with
                    | Some l => ret l
                    | None => alloc ∅
                    end) in
  ret {| e_id := id;
         e_createdAt := createdAt;
         e_updatedAt := updatedAt;
         e_createdBy := d_createdBy data;
         e_updatedBy := d_updatedBy data;
         e_version := or_num (d_version data) 1;
         e_deletedAt := d_deletedAt data;
         e_metadata := Some metadata |}.

(** [isDeleted] *)
Definition isDeleted (e : Entity) : bool :=
  match e_deletedAt e with
  | DDate _ => true
  | DUndefined | DNull => false
  end.

(** [markAsUpdated] *)
Definition markAsUpdated (userId : option UserId) (e : Entity) : St Entity :=
  let* now := newDate clock in
  let e1 := set_updatedAt now e in
  let e2 := if truthy_str userId then set_updatedBy userId e1 else e1 in
  ret (set_version (e_version e2 + 1) e2).

(** [softDelete] *)
Definition softDelete (userId : option UserId) (e : Entity) : St Entity :=
  let* now := newDate clock in
  markAsUpdated None (set_updatedBy userId (set_deletedAt (DDate now) e)).

(** [restore] *)
Definition restore (userId : option UserId) (e : Entity) : St Entity :=
  markAsUpdated None (set_updatedBy userId (set_deletedAt DUndefined e)).

(** [addMetadata] *)
Definition addMetadata (key : string) (v : value) (e : Entity) : St Entity :=
  let* l := (match e_metadata e with
             | Some l => ret l
             | None => alloc ∅
             end) in
  let* _ := modify l (fun o => <[key := v]> o) in
  markAsUpdated None (set_metadata (Some l) e).

(** [getMetadata] *)
Definition getMetadata (key : string) (e : Entity) : St value :=
  match e_metadata e with
  | Some l => let* o := deref l in ret (default VUndefined (o !! key))
  | None => ret VUndefined
  end.

(** [removeMetadata] *)
Definition removeMetadata (key : string) (e : Entity) : St Entity :=
  match e_metadata e with
  | Some l =>
      let* _ := modify l (fun o => delete key o) in
      markAsUpdated None e
  | None => ret e
  end.

(** [createAuditTrail]: here the metadata is copied, [{ ...this.metadata }]. *)
Definition createAuditTrail (operation : string) (userId : option UserId)
    (traceId : option TraceId) (e : Entity) : St AuditTrail :=
  let* ts := newDate clock in
  let* tid := (if truthy_str traceId then ret (default "" traceId)
               else freshId nanoid) in
  let* md := (match e_metadata e with
              | Some l => let* o := deref l in let* l' := alloc o in ret (Some l')
              | None => ret None
              end) in
  ret {| at_operation := operation;
         at_entityId := e_id e;
         at_timestamp := ts;
         at_traceId := tid;
         at_userId := if truthy_str userId then userId else None;
         at_metadata := md |}.

(** [toPlainObject] *)
Definition toPlainObject (e : Entity) : EntityData :=
  {| d_id := Some (e_id e);
     d_createdAt := Some (e_createdAt e);
     d_updatedAt := Some (e_updatedAt e);
     d_createdBy := e_createdBy e;
     d_updatedBy := e_updatedBy e;
     d_version := Some (e_version e);
     d_deletedAt := e_deletedAt e;
     d_metadata := e_metadata e |}.

(** [clone] *)
Definition clone (e : Entity) : St Entity :=
  new_Entity (toPlainObject e).

(** [equals] *)
Definition equals (a b : Entity) : bool :=
  String.eqb (e_id a) (e_id b) && (e_version a =? e_version b).

(** [isNewerThan] *)
Definition isNewerThan (a b : Entity) : bool :=
  e_updatedAt b <? e_updatedAt a.

(** One mutation, and a sequence of them applied in order. *)
Definition mutate (m : Mutation) (e : Entity) : St Entity :=
  match m with
  | MarkAsUpdated u => markAsUpdated u e
  | SoftDelete u => softDelete u e
  | Restore u => restore u e
  | AddMetadata k v => addMetadata k v e
  | RemoveMetadata k => removeMetadata k e
  end.

Fixpoint mutateAll (ms : list Mutation) (e : Entity) : St Entity :=
  match ms with
  | [] => ret e
  | m :: rest => let* e1 := mutate m e in mutateAll rest e1
  end.

End Methods.
End Entity.

(* ===================================================================== *)
(** ** errors/base.ts, errors/domain.ts, utils/response.ts, errors/handlers.ts *)
(* ===================================================================== *)

Module Errors.
Import Js Types Env.
Local Open Scope st_scope.

(** The classes of the taxonomy with the fields each one adds. *)
Inductive ErrorClass :=
| ValidationError (issues : list ValidationIssue)
| DomainValidationError (entityType : string) (issues : list ValidationIssue)
| NotFoundError (resource : string) (identifier : option string)
| ConflictError (conflictType : string) (conflictingValue : option value)
| UnauthorizedError
| ForbiddenError
| RateLimitError (retryAfter : option Z)
| InternalServerError
| DatabaseError (operation : string) (query : option string)
| NetworkError (endpoint method : option string)
| BusinessRuleError (rule : string) (ruleParams : option (list (string * value)))
| ConcurrencyError (expectedVersion actualVersion : Z)
| InvariantViolationError (invariant aggregateId aggregateType : string)
| ResourceExhaustedError (resource : string) (limit current : Z)
| TimeoutError (operation : string) (timeoutMs : Z).

(** [this.constructor.name] *)
Definition className (c : ErrorClass) : string :=
  match c with
  | ValidationError _ => "ValidationError"
  | DomainValidationError _ _ => "DomainValidationError"
  | NotFoundError _ _ => "NotFoundError"
  | ConflictError _ _ => "ConflictError"
  | UnauthorizedError => "UnauthorizedError"
  | ForbiddenError => "ForbiddenError"
  | RateLimitError _ => "RateLimitError"
  | InternalServerError => "InternalServerError"
  | DatabaseError _ _ => "DatabaseError"
  | NetworkError _ _ => "NetworkError"
  | BusinessRuleError _ _ => "BusinessRuleError"
  | ConcurrencyError _ _ => "ConcurrencyError"
  | InvariantViolationError _ _ _ => "InvariantViolationError"
  | ResourceExhaustedError _ _ _ => "ResourceExhaustedError"
  | TimeoutError _ _ => "TimeoutError"
  end.

Record BaseError := {
  be_class : ErrorClass;
  be_name : string;
  be_message : string;
  be_code : string;
  be_statusCode : Z;
  be_traceId : TraceId;
  be_context : option ErrorContext;
  be_timestamp : Z
}.

Inductive Severity := low | medium | high | critical.

(** [isRetryable], one override per class *)
Definition isRetryable (e : BaseError) : bool :=
  match be_class e with
  | ValidationError _ | DomainValidationError _ _ => false
  | NotFoundError _ _ => false
  | ConflictError _ _ => false
  | UnauthorizedError => false
  | ForbiddenError => false
  | RateLimitError _ => true
  | InternalServerError => true
  | DatabaseError _ _ => true
  | NetworkError _ _ => true
  | BusinessRuleError _ _ => false
  | ConcurrencyError _ _ => true
  | InvariantViolationError _ _ _ => false
  | ResourceExhaustedError _ _ _ => true
  | TimeoutError _ _ => true
  end.

(** [getSeverity], one override per class *)
Definition getSeverity (e : BaseError) : Severity :=
  match be_class e with
  | ValidationError _ | DomainValidationError _ _ => low
  | NotFoundError _ _ => low
  | ConflictError _ _ => medium
  | UnauthorizedError => medium
  | ForbiddenError => medium
  | RateLimitError _ => medium
  | InternalServerError => high
  | DatabaseError _ _ => high
  | NetworkError _ _ => high
  | BusinessRuleError _ _ => medium
  | ConcurrencyError _ _ => medium
  | InvariantViolationError _ _ _ => high
  | ResourceExhaustedError _ _ _ => medium
  | TimeoutError _ _ => medium
  end.

(** A value that reaches a [catch]: an instance of the taxonomy, another
    [Error] (of which only [message] is read), or any other value. *)
Inductive thrown :=
| TBase (e : BaseError)
| TError (message : string)
| TValue (v : value).

(** [error instanceof BaseError] *)
Definition isBaseError (t : thrown) : bool :=
  match t with
  | TBase _ => true
  | _ => false
  end.

(** [shouldExposeMessage] *)
Definition shouldExposeMessage (e : BaseError) : bool :=
  (400 <=? be_statusCode e) && (be_statusCode e <? 500).

(** [getSeverityLevel] *)
Definition getSeverityLevel (s : Severity) : string :=
  match s with
  | low => "warn"
  | medium => "error"
  | high => "error"
  | critical => "fatal"
  end.

Section WithOracles.
Variable nanoid : nat -> string.
Variable clock : nat -> Z.

(** [x || generateTraceId()] *)
Definition orGenerateTraceId (x : option TraceId) : St TraceId :=
  if truthy_str x then ret (default "" x) else generateTraceId nanoid.

(** The constructor of [BaseError], reached through [super(...)]. *)
Definition new_BaseError (cls : ErrorClass) (message code : string)
    (statusCode : Z) (context : option ErrorContext) : St BaseError :=
  let* traceId := orGenerateTraceId (ec_traceId <$> context) in
  let* timestamp := newDate clock in
  ret {| be_class := cls;
         be_name := className cls;
         be_message := message;
         be_code := code;
         be_statusCode := statusCode;
         be_traceId := traceId;
         be_context := context;
         be_timestamp := timestamp |}.

(** base.ts *)
Definition new_ValidationError (message : string)
    (issues : option (list ValidationIssue)) (context : option ErrorContext) :=
  new_BaseError (ValidationError (default [] issues)) message
    "VALIDATION_ERROR" 400 context.

Definition notFoundMessage (resource : string) (identifier : option string) : string :=
  if truthy_str identifier
  then resource +:+ " with identifier '" +:+ default "" identifier +:+ "' not found"
  else resource +:+ " not found".

Definition new_NotFoundError (resource : string) (identifier : option string)
    (context : option ErrorContext) :=
  new_BaseError (NotFoundError resource identifier)
    (notFoundMessage resource identifier) "NOT_FOUND" 404 context.

Definition new_ConflictError (message : string) (conflictType : option string)
    (conflictingValue : option value) (context : option ErrorContext) :=
  new_BaseError (ConflictError (default "RESOURCE_CONFLICT" conflictType) conflictingValue)
    message "CONFLICT" 409 context.

Definition new_UnauthorizedError (message : option string)
    (context : option ErrorContext) :=
  new_BaseError UnauthorizedError (default "Unauthorized" message)
    "UNAUTHORIZED" 401 context.

Definition new_ForbiddenError (message : option string)
    (context : option ErrorContext) :=
  new_BaseError ForbiddenError (default "Forbidden" message)
    "FORBIDDEN" 403 context.

Definition new_RateLimitError (message : option string) (retryAfter : option Z)
    (context : option ErrorContext) :=
  new_BaseError (RateLimitError retryAfter) (default "Rate limit exceeded" message)
    "RATE_LIMIT_EXCEEDED" 429 context.

Definition new_InternalServerError (message : option string)
    (context : option ErrorContext) :=
  new_BaseError InternalServerError (default "Internal server error" message)
    "INTERNAL_SERVER_ERROR" 500 context.

Definition new_DatabaseError (message operation : string) (query : option string)
    (context : option ErrorContext) :=
  new_BaseError (DatabaseError operation query) message "DATABASE_ERROR" 500 context.

Definition new_NetworkError (message : string) (endpoint method : option string)
    (context : option ErrorContext) :=
  new_BaseError (NetworkError endpoint method) message "NETWORK_ERROR" 503 context.

(** domain.ts *)
Definition new_BusinessRuleError (message rule : string)
    (ruleParams : option (list (string * value))) (context : option ErrorContext) :=
  new_BaseError (BusinessRuleError rule ruleParams) message
    "BUSINESS_RULE_ERROR" 422 context.

Definition new_ConcurrencyError (message : string) (expectedVersion actualVersion : Z)
    (context : option ErrorContext) :=
  new_BaseError (ConcurrencyError expectedVersion actualVersion) message
    "CONCURRENCY_ERROR" 409 context.

Definition new_DomainValidationError (message entityType : string)
    (issues : option (list ValidationIssue)) (context : option ErrorContext) :=
  new_BaseError (DomainValidationError entityType (default [] issues)) message
    "VALIDATION_ERROR" 400 context.

Definition new_InvariantViolationError (message invariant aggregateId aggregateType : string)
    (context : option ErrorContext) :=
  new_BaseError (InvariantViolationError invariant aggregateId aggregateType) message
    "INVARIANT_VIOLATION" 422 context.

Definition new_ResourceExhaustedError (message resource : string) (limit current : Z)
    (context : option ErrorContext) :=
  new_BaseError (ResourceExhaustedError resource limit current) message
    "RESOURCE_EXHAUSTED" 429 context.

Definition new_TimeoutError (message operation : string) (timeoutMs : Z)
    (context : option ErrorContext) :=
  new_BaseError (TimeoutError operation timeoutMs) message "TIMEOUT_ERROR" 408 context.

(** response.ts [createErrorResponse]: of the descriptor only [message] and
    [traceId] are read. *)
Definition createErrorResponse (error : string + ApiError)
    (message : option string) (traceId : option TraceId) : St ApiResponse :=
  let* errorDetails :=
    (match error with
     | inl s =>
         let* tid := orGenerateTraceId traceId in
         ret {| ae_code := "UNKNOWN_ERROR"; ae_message := s;
                ae_details := None; ae_traceId := tid |}
     | inr d => ret d
     end) in
  let* timestamp := getCurrentTimestamp clock in
  ret {| ar_success := false;
         ar_error := Some (ae_message errorDetails);
         ar_message := Some (if truthy_str message then default "" message
                             else ae_message errorDetails);
         ar_timestamp := timestamp;
         ar_traceId := ae_traceId errorDetails |}.

(** response.ts [createValidationErrorResponse] *)
Definition createValidationErrorResponse (issues : list ValidationIssue)
    (traceId : option TraceId) : St ApiResponse :=
  let* tid := orGenerateTraceId traceId in
  createErrorResponse
    (inr {| ae_code := "VALIDATION_ERROR"; ae_message := "Validation failed";
            ae_details := Some (DetailsIssues issues); ae_traceId := tid |})
    (Some "Validation failed") traceId.

(** response.ts [createNotFoundResponse] *)
Definition createNotFoundResponse (resource : string) (identifier : option string)
    (traceId : option TraceId) : St ApiResponse :=
  let message := notFoundMessage resource identifier in
  let* tid := orGenerateTraceId traceId in
  createErrorResponse
    (inr {| ae_code := "NOT_FOUND"; ae_message := message;
            ae_details := None; ae_traceId := tid |})
    (Some message) traceId.

(** The four creators that differ only in the code and the default message. *)
Definition createCodedResponse (code dflt : string) (message : option string)
    (details : option Details) (traceId : option TraceId) : St ApiResponse :=
  let message := default dflt message in
  let* tid := orGenerateTraceId traceId in
  createErrorResponse
    (inr {| ae_code := code; ae_message := message;
            ae_details := details; ae_traceId := tid |})
    (Some message) traceId.

Definition createUnauthorizedResponse (message : option string) traceId :=
  createCodedResponse "UNAUTHORIZED" "Unauthorized" message None traceId.

Definition createForbiddenResponse (message : option string) traceId :=
  createCodedResponse "FORBIDDEN" "Forbidden" message None traceId.

Definition createConflictResponse (message : option string) traceId :=
  createCodedResponse "CONFLICT" "Resource conflict" message None traceId.

Definition createRateLimitResponse (message : option string)
    (retryAfter : option Z) traceId :=
  createCodedResponse "RATE_LIMIT_EXCEEDED" "Rate limit exceeded" message
    (if truthy_num retryAfter then DetailsRetryAfter <$> retryAfter else None)
    traceId.

(** response.ts [createServerErrorResponse] *)
Definition createServerErrorResponse (message : option string)
    (traceId : option TraceId) : St ApiResponse :=
  let message := default "Internal server error" message in
  let* tid := orGenerateTraceId traceId in
  createErrorResponse
    (inr {| ae_code := "INTERNAL_SERVER_ERROR"; ae_message := message;
            ae_details := None; ae_traceId := tid |})
    (Some message) traceId.

(** handlers.ts [transformToBaseError] *)
Definition transformToBaseError (error : thrown) (context : option ErrorContext)
    : St BaseError :=
  match error with
  | TBase e => ret e
  | TError message => new_InternalServerError (Some message) context
  | TValue (VStr s) => new_InternalServerError (Some s) context
  | TValue _ => new_InternalServerError (Some "An unknown error occurred") context
  end.

(** handlers.ts [errorToResponse]; the [instanceof] tests in source order.
    A [DomainValidationError] is an instance of [ValidationError]. *)
Definition errorToResponse (error : BaseError) : St ApiResponse :=
  let traceId := Some (be_traceId error) in
  match be_class error with
  | ValidationError issues | DomainValidationError _ issues =>
      createValidationErrorResponse issues traceId
  | NotFoundError resource identifier =>
      createNotFoundResponse resource identifier traceId
  | UnauthorizedError =>
      createUnauthorizedResponse (Some (be_message error)) traceId
  | ForbiddenError =>
      createForbiddenResponse (Some (be_message error)) traceId
  | ConflictError _ _ =>
      createConflictResponse (Some (be_message error)) traceId
  | RateLimitError retryAfter =>
      createRateLimitResponse (Some (be_message error)) retryAfter traceId
  | _ =>
      let message := if shouldExposeMessage error then be_message error
                     else "Internal server error" in
      createServerErrorResponse (Some message) traceId
  end.

(** handlers.ts [logError]; the record is what [JSON.stringify] receives. A
    context holds metadata of the kinds of [value] only, which
    [JSON.stringify] accepts. *)
Definition logError (error : BaseError) (context : option ErrorContext) : St unit :=
  let* now := newDate clock in
  consoleError
    {| ld_timestamp := now;
       ld_level := getSeverityLevel (getSeverity error);
       ld_name := be_name error;
       ld_code := be_code error;
       ld_message := be_message error;
       ld_statusCode := be_statusCode error;
       ld_traceId := be_traceId error;
       ld_context := context |}.

(** handlers.ts [handleError] *)
Definition handleError (error : thrown) (context : option ErrorContext)
    : St ApiResponse :=
  let* processedError := transformToBaseError error context in
  let* _ := logError processedError context in
  errorToResponse processedError.

End WithOracles.

(** The strings that a response carries. *)
Definition responseStrings (r : ApiResponse) : list string :=
  option_list (ar_error r) ++ option_list (ar_message r) ++ [ar_traceId r].

End Errors.

(* ===================================================================== *)
(** ** Asynchronous methods: state, a thrown value or a result, and the
       record of calls made to collaborators *)
(* ===================================================================== *)

Module Eff.
Import Errors.

Section Monad.
Context {U Ev : Type}.

(** [user] is whatever the storage adapter and the overridden hooks keep;
    [calls] lists the collaborator calls made so far, oldest first. *)
Record World := {
  user : U;
  calls : list Ev;
  tick : nat
}.

(** An awaited computation: it rejects with a thrown value or resolves. *)
Definition M (A : Type) : Type := World -> (thrown + A) * World.

Definition ret {A} (a : A) : M A := fun w => (inr a, w).

Definition raise {A} (e : thrown) : M A := fun w => (inl e, w).

Definition bind {A B} (m : M A) (k : A -> M B) : M B :=
  fun w =>
    match m w with
    | (inr a, w1) => k a w1
    | (inl e, w1) => (inl e, w1)
    end.

(** [try { body } catch (error) { handler }] *)
Definition tryCatch {A} (body : M A) (handler : thrown -> M A) : M A :=
  fun w =>
    match body w with
    | (inl e, w1) => handler e w1
    | r => r
    end.

(** A collaborator: a function of the user state alone. *)
Definition Collab (A : Type) : Type := U -> (thrown + A) * U.

Definition lift {A} (f : Collab A) : M A :=
  fun w =>
    let '(r, u1) := f (user w) in
    (r, {| user := u1; calls := calls w; tick := tick w |}).

Definition record (ev : Ev) : M unit :=
  fun w => (inr tt, {| user := user w; calls := calls w ++ [ev]; tick := tick w |}).

(** Invoke a collaborator, recording the call before it runs. *)
Definition call {A} (ev : Ev) (f : Collab A) : M A :=
  bind (record ev) (fun _ => lift f).

(** [generateTraceId()] *)
Definition generateTraceId (nanoid : nat -> string) : M string :=
  fun w => (inr (nanoid (tick w)),
            {| user := user w; calls := calls w; tick := S (tick w) |}).

(** [await Promise.all([a, b])] where both promises are created before the
    await: [a] is started first, [b] is started whatever [a] does, and the
    result rejects when either does. *)
Definition both {A B} (a : M A) (b : M B) : M (A * B) :=
  fun w =>
    let '(ra, w1) := a w in
    let '(rb, w2) := b w1 in
    (match ra, rb with
     | inr x, inr y => inr (x, y)
     | inl e, _ => inl e
     | _, inl e => inl e
     end, w2).

End Monad.

Arguments World : clear implicits.
Arguments M : clear implicits.
Arguments Collab : clear implicits.

Declare Scope eff_scope.
Delimit Scope eff_scope with eff.
Notation "'let*' x ':=' m 'in' k" := (bind m (fun x => k))
  (at level 10, x name, m at level 100, k at level 200) : eff_scope.

(** [for (const x of xs) { await f(x) }] *)
Fixpoint forEach {U Ev A} (f : A -> M U Ev unit) (xs : list A) : M U Ev unit :=
  match xs with
  | [] => ret tt
  | x :: rest => bind (f x) (fun _ => forEach f rest)
  end.

End Eff.

(* ===================================================================== *)
(** ** base/repository.ts *)
(* ===================================================================== *)

Module Repository.
Import Js Types Errors Eff Pagination.
Local Open Scope eff_scope.

Record RepositoryConfig := {
  rc_softDelete : option bool;
  rc_timestamps : option bool;
  rc_auditTrail : option bool;
  rc_tenantIsolation : option bool;
  rc_optimisticLocking : option bool;
  rc_caching : option bool;
  rc_cacheTtl : option Z
}.

(** The object given to the constructor, key by key. *)
Record RepositoryConfigArg := {
  arg_softDelete : key bool;
  arg_timestamps : key bool;
  arg_auditTrail : key bool;
  arg_tenantIsolation : key bool;
  arg_optimisticLocking : key bool;
  arg_caching : key bool;
  arg_cacheTtl : key Z
}.

(** The default argument [config = {}]. *)
Definition noConfig : RepositoryConfigArg :=
  {| arg_softDelete := Absent; arg_timestamps := Absent; arg_auditTrail := Absent;
     arg_tenantIsolation := Absent; arg_optimisticLocking := Absent;
     arg_caching := Absent; arg_cacheTtl := Absent |}.

(** The constructor: [{ softDelete: true, ..., ...config }]. *)
Definition new_config (config : RepositoryConfigArg) : RepositoryConfig :=
  {| rc_softDelete := spread true (arg_softDelete config);
     rc_timestamps := spread true (arg_timestamps config);
     rc_auditTrail := spread false (arg_auditTrail config);
     rc_tenantIsolation := spread false (arg_tenantIsolation config);
     rc_optimisticLocking := spread true (arg_optimisticLocking config);
     rc_caching := spread false (arg_caching config);
     rc_cacheTtl := spread 300 (arg_cacheTtl config) |}.

Definition deleteFilter : FilterCondition :=
  {| fc_field := "deletedAt"; fc_operator := op_isNull;
     fc_value := None; fc_values := None |}.

(** [applySoftDeleteFilter], with [config] the stored [this.config] *)
Definition applySoftDeleteFilter (config : RepositoryConfig)
    (criteria : option FilterCriteria) (options : option FindOptions)
    : FilterCriteria :=
  if negb (truthy_bool (rc_softDelete config))
     || truthy_bool (options ≫= fo_withDeleted)
  then default emptyCriteria criteria
  else
    match criteria with
    | None => mkCriteria (Some [deleteFilter]) None None
    | Some c =>
        mkCriteria (Some (default [] (conditions c) ++ [deleteFilter])%list)
                   (logic c) (groups c)
    end.

Section Repo.
Context {TEntity TCreateInput TUpdateInput U : Type}.

(** The calls that reach the storage adapter, with their arguments. *)
Inductive StorageCall :=
| ExecuteCreate (data : TCreateInput) (options : option CreateOptions)
| ExecuteFindById (id : EntityId) (options : option FindOptions)
| ExecuteFindMany (criteria : FilterCriteria) (options : option FindOptions)
| ExecuteUpdate (id : EntityId) (data : TUpdateInput) (options : option UpdateOptions)
| ExecuteDelete (id : EntityId) (options : option DeleteOptions)
| ExecuteCount (criteria : option FilterCriteria)
| ExecuteSearch (query : SearchQuery).

(** The [context] argument of [onError]. *)
Inductive ErrorInfo :=
| InCreate (data : TCreateInput) (options : option CreateOptions) (traceId : TraceId)
| InFindById (id : EntityId) (options : option FindOptions) (traceId : TraceId)
| InFindMany (criteria : FilterCriteria) (options : option FindOptions) (traceId : TraceId)
| InUpdate (id : EntityId) (data : TUpdateInput) (options : option UpdateOptions)
    (traceId : TraceId)
| InDelete (id : EntityId) (options : option DeleteOptions) (traceId : TraceId)
| InCount (criteria : option FilterCriteria) (traceId : TraceId)
| InSearch (query : SearchQuery) (traceId : TraceId).

(** A concrete repository: the seven storage primitives, the hooks it may
    override, and the [deletedAt] field of its entities. *)
Record Adapter := {
  deletedAtOf : TEntity -> optdate;
  executeCreate : TCreateInput -> option CreateOptions -> Collab U TEntity;
  executeFindById : EntityId -> option FindOptions -> Collab U (option TEntity);
  executeFindMany : FilterCriteria -> option FindOptions -> Collab U (list TEntity);
  executeUpdate : EntityId -> TUpdateInput -> option UpdateOptions -> Collab U TEntity;
  executeDelete : EntityId -> option DeleteOptions -> Collab U unit;
  executeCount : option FilterCriteria -> Collab U Z;
  executeSearch : SearchQuery -> Collab U (SearchResult TEntity);
  beforeCreate : TCreateInput -> option CreateOptions -> Collab U unit;
  afterCreate : TEntity -> option CreateOptions -> Collab U unit;
  beforeUpdate : EntityId -> TUpdateInput -> option UpdateOptions -> Collab U unit;
  afterUpdate : TEntity -> option UpdateOptions -> Collab U unit;
  beforeDelete : EntityId -> option DeleteOptions -> Collab U unit;
  afterDelete : EntityId -> option DeleteOptions -> Collab U unit;
  onError : string -> thrown -> ErrorInfo -> Collab U unit
}.

Variable nanoid : nat -> string.
Variable config : RepositoryConfig.
Variable this : Adapter.

Local Abbreviation R := (M U StorageCall).

(** [catch (error) { await this.onError(op, error, ctx); throw error; }] *)
Definition rethrow {A} (operation : string) (info : ErrorInfo) (error : thrown) : R A :=
  let* _ := lift (onError this operation error info) in
  raise error.

(** [isDeleted]: [Boolean(entity.deletedAt)] *)
Definition isDeleted (entity : TEntity) : bool :=
  match deletedAtOf this entity with
  | DDate _ => true
  | DUndefined | DNull => false
  end.

(** [create] *)
Definition create (data : TCreateInput) (options : option CreateOptions) : R TEntity :=
  let* traceId := generateTraceId nanoid in
  tryCatch
    (let* _ := lift (beforeCreate this data options) in
     let* entity := call (ExecuteCreate data options) (executeCreate this data options) in
     let* _ := lift (afterCreate this entity options) in
     ret entity)
    (rethrow "create" (InCreate data options traceId)).

(** [findById] *)
Definition findById (id : EntityId) (options : option FindOptions)
    : R (option TEntity) :=
  let* traceId := generateTraceId nanoid in
  tryCatch
    (let* entity := call (ExecuteFindById id options) (executeFindById this id options) in
     match entity with
     | Some e =>
         if truthy_bool (rc_softDelete config)
            && negb (truthy_bool (options ≫= fo_withDeleted))
         then (if isDeleted e then ret None else ret (Some e))
         else ret (Some e)
     | None => ret None
     end)
    (rethrow "findById" (InFindById id options traceId)).

(** [findMany] *)
Definition findMany (criteria : FilterCriteria) (options : option FindOptions)
    : R (list TEntity) :=
  let* traceId := generateTraceId nanoid in
  tryCatch
    (let enhancedCriteria := applySoftDeleteFilter config (Some criteria) options in
     call (ExecuteFindMany enhancedCriteria options)
          (executeFindMany this enhancedCriteria options))
    (rethrow "findMany" (InFindMany criteria options traceId)).

(** [update] *)
Definition update (id : EntityId) (data : TUpdateInput)
    (options : option UpdateOptions) : R TEntity :=
  let* traceId := generateTraceId nanoid in
  tryCatch
    (let* _ := lift (beforeUpdate this id data options) in
     let* entity := call (ExecuteUpdate id data options)
                         (executeUpdate this id data options) in
     let* _ := lift (afterUpdate this entity options) in
     ret entity)
    (rethrow "update" (InUpdate id data options traceId)).

(** [delete] *)
Definition delete (id : EntityId) (options : option DeleteOptions) : R unit :=
  let* traceId := generateTraceId nanoid in
  tryCatch
    (let* _ := lift (beforeDelete this id options) in
     let* _ := call (ExecuteDelete id options) (executeDelete this id options) in
     lift (afterDelete this id options))
    (rethrow "delete" (InDelete id options traceId)).

(** [count]: it has no [options] parameter *)
Definition count (criteria : option FilterCriteria) : R Z :=
  let* traceId := generateTraceId nanoid in
  tryCatch
    (let enhancedCriteria := applySoftDeleteFilter config criteria None in
     call (ExecuteCount (Some enhancedCriteria))
          (executeCount this (Some enhancedCriteria)))
    (rethrow "count" (InCount criteria traceId)).

(** [exists] *)
Definition exists_ (id : EntityId) : R bool :=
  let* entity := findById id None in
  ret (match entity with Some _ => true | None => false end).

(** [list]; the [ListOptions] object reaches the primitives at type
    [FindOptions]. *)
Definition list_ (options : ListOptions) : R (PaginatedResult TEntity) :=
  let page := or_num (po_page (lo_pagination options)) 1 in
  let limit := or_num (po_limit (lo_pagination options)) 10 in
  let criteria := default emptyCriteria (lo_filter options) in
  let enhancedCriteria :=
    applySoftDeleteFilter config (Some criteria) (Some (lo_find options)) in
  let* r := both
    (call (ExecuteFindMany enhancedCriteria (Some (lo_find options)))
          (executeFindMany this enhancedCriteria (Some (lo_find options))))
    (call (ExecuteCount (Some enhancedCriteria))
          (executeCount this (Some enhancedCriteria))) in
  ret {| pr_data := r.1; pr_pagination := pageInfo page limit r.2 |}.

(** [search] *)
Definition search (query : SearchQuery) : R (SearchResult TEntity) :=
  let* traceId := generateTraceId nanoid in
  tryCatch
    (call (ExecuteSearch query) (executeSearch this query))
    (rethrow "search" (InSearch query traceId)).

End Repo.
End Repository.

(* ===================================================================== *)
(** ** base/service.ts *)
(* ===================================================================== *)

Module Service.
Import Js Types Errors Eff.
Local Open Scope eff_scope.

Record ServiceConfig := {
  sc_validation : option bool;
  sc_events : option bool;
  sc_auditTrail : option bool;
  sc_caching : option bool;
  sc_retries : option Z
}.

(** The object given to the constructor, key by key. *)
Record ServiceConfigArg := {
  arg_validation : key bool;
  arg_events : key bool;
  arg_auditTrail : key bool;
  arg_caching : key bool;
  arg_retries : key Z
}.

(** The default argument [config = {}]. *)
Definition noConfig : ServiceConfigArg :=
  {| arg_validation := Absent; arg_events := Absent; arg_auditTrail := Absent;
     arg_caching := Absent; arg_retries := Absent |}.

(** The constructor: [{ validation: true, ..., ...config }]. *)
Definition new_config (config : ServiceConfigArg) : ServiceConfig :=
  {| sc_validation := spread true (arg_validation config);
     sc_events := spread false (arg_events config);
     sc_auditTrail := spread false (arg_auditTrail config);
     sc_caching := spread false (arg_caching config);
     sc_retries := spread 0 (arg_retries config) |}.

(** The collaborators of a service method: the hooks of the service itself
    and the methods of the repository it wraps. *)
Inductive Hook :=
| BeforeCreate | ValidateCreate | AfterCreate
| BeforeUpdate | ValidateUpdate | AfterUpdate
| BeforeDelete | AfterDelete
| AfterFind
| OnError.

Inductive RepoMethod :=
| RepoCreate | RepoFindById | RepoUpdate | RepoDelete | RepoList | RepoSearch.

Inductive ServiceCall :=
| HookCall (h : Hook)
| RepoCall (r : RepoMethod).

Section Svc.
Context {TEntity TCreateInput TUpdateInput U : Type}.

(** The [context] argument of [onError]. *)
Inductive ErrorInfo :=
| InCreate (data : TCreateInput) (options : option CreateOptions) (traceId : TraceId)
| InFindById (id : EntityId) (options : option FindOptions) (traceId : TraceId)
| InUpdate (id : EntityId) (data : TUpdateInput) (options : option UpdateOptions)
    (traceId : TraceId)
| InDelete (id : EntityId) (options : option DeleteOptions) (traceId : TraceId)
| InList (options : ListOptions) (traceId : TraceId)
| InSearch (query : SearchQuery) (traceId : TraceId).

(** [IRepository], as far as the service calls it. *)
Record IRepository := {
  repo_create : TCreateInput -> option CreateOptions -> Collab U TEntity;
  repo_findById : EntityId -> option FindOptions -> Collab U (option TEntity);
  repo_update : EntityId -> TUpdateInput -> option UpdateOptions -> Collab U TEntity;
  repo_delete : EntityId -> option DeleteOptions -> Collab U unit;
  repo_list : ListOptions -> Collab U (PaginatedResult TEntity);
  repo_search : SearchQuery -> Collab U (SearchResult TEntity)
}.

(** The hooks a concrete service may override. *)
Record Hooks := {
  beforeCreate : TCreateInput -> option CreateOptions -> Collab U unit;
  afterCreate : TEntity -> option CreateOptions -> Collab U unit;
  beforeUpdate : EntityId -> TUpdateInput -> option UpdateOptions -> Collab U unit;
  afterUpdate : TEntity -> option UpdateOptions -> Collab U unit;
  beforeDelete : EntityId -> option DeleteOptions -> Collab U unit;
  afterDelete : EntityId -> option DeleteOptions -> Collab U unit;
  afterFind : TEntity -> option FindOptions -> Collab U unit;
  validateCreate : TCreateInput -> option CreateOptions -> Collab U unit;
  validateUpdate : EntityId -> TUpdateInput -> option UpdateOptions -> Collab U unit;
  onError : string -> thrown -> ErrorInfo -> Collab U unit
}.

Variable nanoid : nat -> string.
Variable config : ServiceConfig.
Variable repository : IRepository.
Variable this : Hooks.

Local Abbreviation S := (M U ServiceCall).

(** [catch (error) { await this.onError(op, error, ctx); throw error; }] *)
Definition rethrow {A} (operation : string) (info : ErrorInfo) (error : thrown) : S A :=
  let* _ := call (HookCall OnError) (onError this operation error info) in
  raise error.

(** [create] *)
Definition create (data : TCreateInput) (options : option CreateOptions) : S TEntity :=
  let* traceId := generateTraceId nanoid in
  tryCatch
    (let* _ := call (HookCall BeforeCreate) (beforeCreate this data options) in
     let* _ := (if truthy_bool (sc_validation config)
                then call (HookCall ValidateCreate) (validateCreate this data options)
                else ret tt) in
     let* entity := call (RepoCall RepoCreate) (repo_create repository data options) in
     let* _ := call (HookCall AfterCreate) (afterCreate this entity options) in
     ret entity)
    (rethrow "create" (InCreate data options traceId)).

(** [findById] *)
Definition findById (id : EntityId) (options : option FindOptions)
    : S (option TEntity) :=
  let* traceId := generateTraceId nanoid in
  tryCatch
    (let* entity := call (RepoCall RepoFindById) (repo_findById repository id options) in
     let* _ := (match entity with
                | Some e => call (HookCall AfterFind) (afterFind this e options)
                | None => ret tt
                end) in
     ret entity)
    (rethrow "findById" (InFindById id options traceId)).

(** [update] *)
Definition update (id : EntityId) (data : TUpdateInput)
    (options : option UpdateOptions) : S TEntity :=
  let* traceId := generateTraceId nanoid in
  tryCatch
    (let* _ := call (HookCall BeforeUpdate) (beforeUpdate this id data options) in
     let* _ := (if truthy_bool (sc_validation config)
                then call (HookCall ValidateUpdate) (validateUpdate this id data options)
                else ret tt) in
     let* entity := call (RepoCall RepoUpdate) (repo_update repository id data options) in
     let* _ := call (HookCall AfterUpdate) (afterUpdate this entity options) in
     ret entity)
    (rethrow "update" (InUpdate id data options traceId)).

(** [delete] *)
Definition delete (id : EntityId) (options : option DeleteOptions) : S unit :=
  let* traceId := generateTraceId nanoid in
  tryCatch
    (let* _ := call (HookCall BeforeDelete) (beforeDelete this id options) in
     let* _ := call (RepoCall RepoDelete) (repo_delete repository id options) in
     call (HookCall AfterDelete) (afterDelete this id options))
    (rethrow "delete" (InDelete id options traceId)).

(** [list] *)
Definition list_ (options : ListOptions) : S (PaginatedResult TEntity) :=
  let* traceId := generateTraceId nanoid in
  tryCatch
    (let* result := call (RepoCall RepoList) (repo_list repository options) in
     let* _ := forEach
                 (fun entity => call (HookCall AfterFind)
                                     (afterFind this entity (Some (lo_find options))))
                 (pr_data result) in
     ret result)
    (rethrow "list" (InList options traceId)).

(** [search] *)
Definition search (query : SearchQuery) : S (SearchResult TEntity) :=
  let* traceId := generateTraceId nanoid in
  tryCatch
    (let* result := call (RepoCall RepoSearch) (repo_search repository query) in
     let* _ := forEach
                 (fun entity => call (HookCall AfterFind) (afterFind this entity None))
                 (sr_data result) in
     ret result)
    (rethrow "search" (InSearch query traceId)).

End Svc.
End Service.

(* ===================================================================== *)
(** ** utils/helpers.ts: case conversion and retry *)
(* ===================================================================== *)

Module Helpers.
Import Js Types Errors Eff.
Local Open Scope eff_scope.

(** The character classes [[a-z]] and [[A-Z]] of the two patterns. *)
Definition isLower (c : Ascii.ascii) : bool :=
  (97 <=? Ascii.nat_of_ascii c)%nat && (Ascii.nat_of_ascii c <=? 122)%nat.

Definition isUpper (c : Ascii.ascii) : bool :=
  (65 <=? Ascii.nat_of_ascii c)%nat && (Ascii.nat_of_ascii c <=? 90)%nat.

(** [letter.toUpperCase()] on a letter of [[a-z]], [letter.toLowerCase()] on
    a letter of [[A-Z]]. *)
Definition toUpper (c : Ascii.ascii) : Ascii.ascii := Ascii.ascii_of_nat (Ascii.nat_of_ascii c - 32).
Definition toLower (c : Ascii.ascii) : Ascii.ascii := Ascii.ascii_of_nat (Ascii.nat_of_ascii c + 32).

Definition underscore : Ascii.ascii := Ascii.ascii_of_nat 95.

(** [toCamelCase]: [str.replace(/_([a-z])/g, (_, letter) => letter.toUpperCase())].
    The scan goes left to right and resumes after each match. *)
Fixpoint toCamelCase (str : string) : string :=
  match str with
  | EmptyString => EmptyString
  | String c rest =>
      match rest with
      | String d rest' =>
          if Ascii.eqb c underscore && isLower d
          then String (toUpper d) (toCamelCase rest')
          else String c (toCamelCase rest)
      | EmptyString => String c EmptyString
      end
  end.

(** [toSnakeCase]: [str.replace(/[A-Z]/g, letter => `_${letter.toLowerCase()}`)] *)
Fixpoint toSnakeCase (str : string) : string :=
  match str with
  | EmptyString => EmptyString
  | String c rest =>
      if isUpper c
      then String underscore (String (toLower c) (toSnakeCase rest))
      else String c (toSnakeCase rest)
  end.

(** The options of [retry]; a missing field takes its default. *)
Record RetryOptions := {
  ro_maxAttempts : option Z;
  ro_delay : option Z;
  ro_backoffFactor : option Z;
  ro_shouldRetry : option (thrown -> bool)
}.

Definition noRetryOptions : RetryOptions :=
  {| ro_maxAttempts := None; ro_delay := None;
     ro_backoffFactor := None; ro_shouldRetry := None |}.

(** What [retry] does to the outside: it calls [fn] and it sleeps. *)
Inductive RetryCall :=
| Attempt (attempt : Z)
| Sleep (ms : Z).

Section Retry.
Context {U A : Type}.
Variable fn : Collab U A.
Variable options : RetryOptions.

Definition maxAttempts : Z := default 3 (ro_maxAttempts options).
Definition delay : Z := default 1000 (ro_delay options).
Definition backoffFactor : Z := default 2 (ro_backoffFactor options).
Definition shouldRetry : thrown -> bool :=
  default (fun _ => true) (ro_shouldRetry options).

(** The loop [for (attempt = 1; attempt <= maxAttempts; attempt++)], entered
    with [remaining] iterations still allowed by the loop condition; after
    the loop comes [throw lastError]. *)
Fixpoint retryFrom (remaining : nat) (attempt : Z) (lastError : thrown)
    : M U RetryCall A :=
  match remaining with
  | O => raise lastError
  | S k =>
      tryCatch (call (Attempt attempt) fn)
        (fun error =>
           if (attempt =? maxAttempts) || negb (shouldRetry error)
           then raise error
           else
             let waitTime := delay * backoffFactor ^ (attempt - 1) in
             let* _ := record (Sleep waitTime) in
             retryFrom k (attempt + 1) error)
  end.

(** [retry]; [lastError] starts out [undefined]. *)
Definition retry : M U RetryCall A :=
  retryFrom (Z.to_nat maxAttempts) 1 (TValue VUndefined).

End Retry.
End Helpers.

(* ===================================================================== *)
(** ** utils/response.ts and errors/handlers.ts: the HTTP response *)
(* ===================================================================== *)

Module Http.
Import Js Types Env Errors.
Local Open Scope st_scope.

(** A [Response]; [body] is the value handed to [JSON.stringify]. *)
Record Response (B : Type) := {
  status : Z;
  headers : gmap string string;
  body : B
}.
Arguments status {B} _.
Arguments headers {B} _.
Arguments body {B} _.

Definition defaultHeaders : gmap string string :=
  <["Content-Type" := "application/json"]>
  (<["Access-Control-Allow-Origin" := "*"]>
  (<["Access-Control-Allow-Methods" := "GET, POST, PUT, DELETE, OPTIONS"]>
  (<["Access-Control-Allow-Headers" := "Content-Type, Authorization"]> ∅))).

(** [toJsonResponse]: the caller's headers are spread after the defaults. *)
Definition toJsonResponse {B} (data : B) (status : option Z)
    (headers : option (gmap string string)) : Response B :=
  {| status := default 200 status;
     headers := default ∅ headers ∪ defaultHeaders;
     body := data |}.

(** [toHttpResponse] *)
Definition toHttpResponse (apiResponse : ApiResponse) (statusCode : option Z)
    : Response ApiResponse :=
  let status := if truthy_num statusCode then default 0 statusCode
                else if ar_success apiResponse then 200 else 400 in
  toJsonResponse apiResponse (Some status) None.

(** handlers.ts [handleErrorAsHttpResponse] *)
Definition handleErrorAsHttpResponse (nanoid : nat -> string) (clock : nat -> Z)
    (error : thrown) (context : option ErrorContext) : St (Response ApiResponse) :=
  let* apiResponse := handleError nanoid clock error context in
  ret (toHttpResponse apiResponse None).

End Http.

(* ===================================================================== *)
(** ** query/filters.ts *)
(* ===================================================================== *)

Module Filters.
Import Js Types.

(** The calls a [FilterBuilder] accepts. *)
Inductive BuilderCall :=
| b_eq (field : string) (v : value)
| b_ne (field : string) (v : value)
| b_gt (field : string) (v : value)
| b_gte (field : string) (v : value)
| b_lt (field : string) (v : value)
| b_lte (field : string) (v : value)
| b_like (field : string) (v : value)
| b_in (field : string) (vs : list value)
| b_isNull (field : string)
| b_isNotNull (field : string).

Definition unary (field : string) (op : FilterOperator) (v : value) : FilterCondition :=
  {| fc_field := field; fc_operator := op; fc_value := Some v; fc_values := None |}.

(** The object literal that each method pushes. *)
Definition pushed (c : BuilderCall) : FilterCondition :=
  match c with
  | b_eq f v => unary f op_eq v
  | b_ne f v => unary f op_ne v
  | b_gt f v => unary f op_gt v
  | b_gte f v => unary f op_gte v
  | b_lt f v => unary f op_lt v
  | b_lte f v => unary f op_lte v
  | b_like f v => unary f op_like v
  | b_in f vs => {| fc_field := f; fc_operator := op_in;
                    fc_value := None; fc_values := Some vs |}
  | b_isNull f => {| fc_field := f; fc_operator := op_isNull;
                     fc_value := None; fc_values := None |}
  | b_isNotNull f => {| fc_field := f; fc_operator := op_isNotNull;
                        fc_value := None; fc_values := None |}
  end.

(** The private [conditions] array of a builder, by value: a builder is
    read here only through one final [build()]. *)
Definition FilterBuilder : Type := list FilterCondition.


(** One fluent call: [this.conditions.push(...)]. *)
Definition apply (b : FilterBuilder) (c : BuilderCall) : FilterBuilder := b ++ [pushed c].


(** [build] *)
Definition build (b : FilterBuilder) : FilterCriteria :=
  mkCriteria (Some b) (Some AND) None.

(** [andFilters], [orFilters] *)
Definition andFilters (filters : list FilterCriteria) : FilterCriteria :=
  mkCriteria None (Some AND) (Some filters).

Definition orFilters (filters : list FilterCriteria) : FilterCriteria :=
  mkCriteria None (Some OR) (Some filters).

End Filters.

(* ===================================================================== *)
(** * Properties *)
(* ===================================================================== *)

(** ** Pagination *)

Module PaginationFacts.
Import Js Types Pagination.

(** [Math.ceil(a / b)] for a positive divisor is the least [n] with
    [a <= n * b]. *)
Lemma Qceiling_div (a b : Z) :
  0 < b ->
  let n := Qceiling (inject_Z a / inject_Z b) in
  a <= n * b /\ (n - 1) * b < a.
Proof.
  intros Hb n.
  pose proof (Qle_ceiling (inject_Z a / inject_Z b)) as Hle.
  pose proof (Qceiling_lt (inject_Z a / inject_Z b)) as Hlt.
  fold n in Hle, Hlt.
  assert (Hbq : (inject_Z 0 < inject_Z b)%Q) by (rewrite <- Zlt_Qlt; exact Hb).
  assert (Hnz : ~ (inject_Z b == 0)%Q).
  { intros H. rewrite H in Hbq. exact (Qlt_irrefl _ Hbq). }
  split.
  - apply (Qmult_le_r _ _ _ Hbq) in Hle.
    rewrite Qmult_comm, Qmult_div_r in Hle by exact Hnz.
    rewrite <- inject_Z_mult in Hle. rewrite <- Zle_Qle in Hle. exact Hle.
  - apply (Qmult_lt_r _ _ _ Hbq) in Hlt.
    rewrite (Qmult_comm (_ / _)), Qmult_div_r in Hlt by exact Hnz.
    rewrite <- inject_Z_mult in Hlt. rewrite <- Zlt_Qlt in Hlt. lia.
Qed.

Lemma calculateTotalPages_pos (total limit : Z) :
  0 < limit ->
  exists n, calculateTotalPages total limit = Fin n
            /\ total <= n * limit /\ (n - 1) * limit < total.
Proof.
  intros Hl. unfold calculateTotalPages, ceil_div.
  destruct (Z.eqb_spec limit 0) as [->|_]; [lia|].
  eexists; split; [reflexivity|]. apply Qceiling_div. exact Hl.
Qed.

(** Whatever the page, a next page is announced exactly when items remain
    beyond the current window. *)
Lemma hasNext_iff_remaining (T L P n : Z) :
  0 < L -> T <= n * L -> (n - 1) * L < T -> (P < n <-> P * L < T).
Proof. intros HL Hup Hlo. split; intros H; nia. Qed.

(** C4: for a total [T >= 0] and a limit [L >= 1], [getPaginationMeta]
    returns offset [(P-1)*L], a page count [n] that is the ceiling of [T/L]
    (the least integer with [T <= n*L]), [hasNext] exactly when [P < n] and
    [hasPrev] exactly when [P > 1]; hence on every page [1 <= P <= n],
    [hasNext] holds exactly when [P*L < T]. *)
Theorem offset_pagination_formulae (T L P : Z) :
  0 <= T -> 1 <= L ->
  exists n : Z,
    calculateTotalPages T L = Fin n /\
    pm_totalPages (getPaginationMeta P L T) = Fin n /\
    (T <= n * L /\ (n - 1) * L < T) /\
    calculateOffset P L = (P - 1) * L /\
    pm_offset (getPaginationMeta P L T) = (P - 1) * L /\
    (pm_hasNext (getPaginationMeta P L T) = true <-> P < n) /\
    (pm_hasPrev (getPaginationMeta P L T) = true <-> 1 < P) /\
    (1 <= P <= n -> (pm_hasNext (getPaginationMeta P L T) = true <-> P * L < T)).
Proof.
  intros HT HL.
  destruct (calculateTotalPages_pos T L) as (n & Hn & Hup & Hlo); [lia|].
  exists n. cbn [getPaginationMeta pm_totalPages pm_offset pm_hasNext pm_hasPrev].
  rewrite Hn. cbn [lt_num]. unfold calculateOffset.
  repeat split; try reflexivity; try lia.
  - intros Hlt. apply Z.ltb_lt in Hlt. apply (hasNext_iff_remaining T L P n); lia.
  - intros Hrem. apply Z.ltb_lt. apply (hasNext_iff_remaining T L P n); lia.
Qed.

Lemma offset_pagination_formulae_witness :
  exists n : Z,
    calculateTotalPages 25 10 = Fin n /\
    pm_totalPages (getPaginationMeta 1 10 25) = Fin n /\
    (25 <= n * 10 /\ (n - 1) * 10 < 25) /\
    calculateOffset 1 10 = (1 - 1) * 10 /\
    pm_offset (getPaginationMeta 1 10 25) = (1 - 1) * 10 /\
    (pm_hasNext (getPaginationMeta 1 10 25) = true <-> 1 < n) /\
    (pm_hasPrev (getPaginationMeta 1 10 25) = true <-> 1 < 1) /\
    (1 <= 1 <= n -> (pm_hasNext (getPaginationMeta 1 10 25) = true <-> 1 * 10 < 25)).
Proof. apply (offset_pagination_formulae 25 10 1); lia. Defined.

(** The worked example of the specification: 25 items, 10 per page. *)
Example three_pages :
  pm_totalPages (getPaginationMeta 1 10 25) = Fin 3
  /\ pm_hasNext (getPaginationMeta 1 10 25) = true
  /\ pm_hasPrev (getPaginationMeta 1 10 25) = false
  /\ pm_hasNext (getPaginationMeta 3 10 25) = false
  /\ pm_hasPrev (getPaginationMeta 3 10 25) = true.
Proof. vm_compute. repeat split. Qed.

Section Cursor.
Context {A : Type}.
Implicit Types (data : list A) (getCursor : A -> string) (L : Z).

Lemma cursor_hasPrev data getCursor L :
  cp_hasPrev (createCursorPagination data getCursor L) = false.
Proof. reflexivity. Qed.

Lemma cursor_overfetched data getCursor L :
  Z.of_nat (length data) = L + 1 ->
  cp_data (createCursorPagination data getCursor L) = take (Z.to_nat L) data
  /\ cp_nextCursor (createCursorPagination data getCursor L)
     = getCursor <$> last (take (Z.to_nat L) data).
Proof.
  intros Hlen. unfold createCursorPagination.
  assert (Hmore : (L <? Z.of_nat (length data)) = true) by (apply Z.ltb_lt; lia).
  rewrite Hmore. cbn [cp_data cp_nextCursor andb].
  replace (length data - 1)%nat with (Z.to_nat L) by lia.
  split; [reflexivity|].
  destruct (Z.ltb_spec 0 (Z.of_nat (length (take (Z.to_nat L) data)))) as [_|Hz];
    [reflexivity|].
  assert (Hnil : take (Z.to_nat L) data = []).
  { apply length_zero_iff_nil. lia. }
  rewrite Hnil. reflexivity.
Qed.

Lemma cursor_last_retained data L :
  Z.of_nat (length data) = L + 1 -> 1 <= L ->
  last (take (Z.to_nat L) data) = data !! (Z.to_nat L - 1)%nat
  /\ is_Some (data !! (Z.to_nat L - 1)%nat).
Proof.
  intros Hlen HL.
  rewrite last_lookup, length_take.
  replace (Nat.pred (Z.to_nat L `min` length data)) with (Z.to_nat L - 1)%nat by lia.
  rewrite lookup_take_lt by lia.
  split; [reflexivity|]. apply lookup_lt_is_Some. lia.
Qed.

Lemma cursor_not_overfetched data getCursor L :
  Z.of_nat (length data) <= L ->
  cp_data (createCursorPagination data getCursor L) = data
  /\ cp_nextCursor (createCursorPagination data getCursor L) = None.
Proof.
  intros Hlen. unfold createCursorPagination.
  assert (Hmore : (L <? Z.of_nat (length data)) = false) by (apply Z.ltb_ge; lia).
  rewrite Hmore. split; reflexivity.
Qed.

(** C5: given [L+1] candidates, [createCursorPagination] returns the first
    [L] and a [nextCursor] that is the cursor function applied to the last
    retained item (item [L-1], which exists as soon as [L >= 1]); given at
    most [L] candidates it returns them all and no [nextCursor]; [hasPrev] is
    [false] in every case. *)
Theorem createCursorPagination_spec data getCursor L :
  let r := createCursorPagination data getCursor L in
  cp_hasPrev r = false
  /\ (Z.of_nat (length data) = L + 1 ->
        cp_data r = take (Z.to_nat L) data
        /\ cp_nextCursor r = getCursor <$> last (cp_data r)
        /\ (1 <= L -> exists x, data !! (Z.to_nat L - 1)%nat = Some x
                                /\ last (cp_data r) = Some x
                                /\ cp_nextCursor r = Some (getCursor x)))
  /\ (Z.of_nat (length data) <= L ->
        cp_data r = data /\ cp_nextCursor r = None).
Proof.
  intros r. subst r. split; [apply cursor_hasPrev|]. split.
  - intros Hlen.
    destruct (cursor_overfetched data getCursor L Hlen) as [Hd Hc].
    rewrite Hd, Hc. repeat split.
    intros HL.
    destruct (cursor_last_retained data L Hlen HL) as [Hlast [x Hx]].
    exists x. rewrite Hlast, Hx. repeat split.
  - apply cursor_not_overfetched.
Qed.

End Cursor.

(** The two examples of the specification: 11 and 5 candidates, limit 10. *)
Definition eleven : list nat := seq 0 11.
Definition five : list nat := seq 0 5.
Definition cursorOf (n : nat) : string := String (Ascii.ascii_of_nat (97 + n)) "".

Lemma createCursorPagination_spec_witness :
  (cp_data (createCursorPagination eleven cursorOf 10) = seq 0 10
   /\ cp_nextCursor (createCursorPagination eleven cursorOf 10) = Some (cursorOf 9))
  /\ (cp_data (createCursorPagination five cursorOf 10) = five
      /\ cp_nextCursor (createCursorPagination five cursorOf 10) = None).
Proof.
  destruct (createCursorPagination_spec eleven cursorOf 10) as (_ & Hover & _).
  destruct (createCursorPagination_spec five cursorOf 10) as (_ & _ & Hunder).
  split.
  - destruct Hover as (Hd & _ & Hx); [reflexivity|].
    destruct Hx as (x & Hx & _ & Hc); [lia|].
    split; [exact Hd|]. rewrite Hc. injection Hx as <-. reflexivity.
  - apply Hunder. vm_compute. discriminate.
Defined.

(** What [validatePagination] rejects: a page or limit that is negative, or
    a limit above 100.  Zero is falsy, so it is skipped like a missing
    field. *)
Lemma validatePagination_throws_iff (o : PaginationOptions) :
  (exists msg, validatePagination o = inl msg)
  <-> ((exists p, po_page o = Some p /\ p < 0)
       \/ (exists l, po_limit o = Some l /\ (l < 0 \/ 100 < l))).
Proof.
  unfold validatePagination, present_and_lt, present_and_gt, truthy_num.
  destruct o as [[p|] [l|] off cur]; cbn [po_page po_limit default from_option];
    unfold id;
    repeat match goal with
           | |- context [?a =? ?b] => destruct (Z.eqb_spec a b)
           | |- context [?a <? ?b] => destruct (Z.ltb_spec a b)
           end; cbn [negb andb];
    (split;
     [ intros [msg Hm]; try discriminate Hm;
       first [ left; eexists; split; [reflexivity|lia]
             | right; eexists; split; [reflexivity|lia] ]
     | intros [(p' & Hp & Hlt) | (l' & Hl & Hlt)];
       try discriminate; simplify_eq; first [lia | eexists; reflexivity] ]).
Qed.

(** C6: with [page = 0] the call returns normally although [0 < 1] and the
    error text of the very check reads 'Page must be greater than 0'; the
    same happens with [limit = 0]. *)
Theorem validatePagination_accepts_zero :
  validatePagination {| po_page := Some 0; po_limit := Some 10;
                        po_offset := None; po_cursor := None |} = inr tt
  /\ validatePagination {| po_page := Some 1; po_limit := Some 0;
                           po_offset := None; po_cursor := None |} = inr tt
  /\ validatePagination {| po_page := Some (-1); po_limit := Some 10;
                           po_offset := None; po_cursor := None |}
     = inl "Page must be greater than 0".
Proof. repeat split. Qed.

End PaginationFacts.

(** ** Entity *)

Module EntityFacts.
Import Js Types Env Entity.

(** A run that starts from an empty heap, with a clock that ticks. *)
Definition demoIds (n : nat) : string := "entity-" +:+ String (Ascii.ascii_of_nat (97 + n)) "".
Definition demoClock (n : nat) : Z := 1700000000000 + Z.of_nat n.
Definition emptyWorld : World := {| heap := []; console := []; tick := 0 |}.

Section Facts.
Variable nanoid : nat -> string.
Variable clock : nat -> Z.
Implicit Types (e : Entity) (w : World) (m : Mutation) (u : option UserId).

Lemma markAsUpdated_fields u e w :
  let e' := (markAsUpdated clock u e w).1 in
  e_version e' = e_version e + 1
  /\ e_id e' = e_id e
  /\ e_deletedAt e' = e_deletedAt e
  /\ e_metadata e' = e_metadata e.
Proof.
  unfold markAsUpdated, bind, newDate, ret. cbn.
  destruct (truthy_str u); cbn; repeat split.
Qed.

Lemma new_Entity_fields (data : EntityData) w :
  let e := (new_Entity nanoid clock data w).1 in
  e_version e = or_num (d_version data) 1
  /\ is_Some (e_metadata e).
Proof.
  unfold new_Entity, bind, ret.
  destruct (truthy_str (d_id data)), (d_createdAt data), (d_updatedAt data),
    (d_metadata data); cbn; split; eauto.
Qed.

(** Every mutation of an entity that holds a metadata object adds one to
    the version, keeps the id and keeps a metadata object. *)
Lemma mutate_fields m e w :
  is_Some (e_metadata e) ->
  let e' := (mutate clock m e w).1 in
  e_version e' = e_version e + 1
  /\ e_id e' = e_id e
  /\ is_Some (e_metadata e').
Proof.
  intros [l Hl].
  destruct m; cbn [mutate];
    unfold softDelete, restore, addMetadata, removeMetadata;
    rewrite ?Hl; unfold markAsUpdated, bind, newDate, ret, modify; cbn;
    try match goal with |- context [truthy_str ?x] => destruct (truthy_str x) end;
    cbn; repeat split; eauto; lia.
Qed.

Lemma mutateAll_fields (ms : list Mutation) e w :
  is_Some (e_metadata e) ->
  let e' := (mutateAll clock ms e w).1 in
  e_version e' = e_version e + Z.of_nat (length ms)
  /\ e_id e' = e_id e
  /\ is_Some (e_metadata e').
Proof.
  revert e w. induction ms as [|m ms IH]; intros e w Hmd.
  - cbn. repeat split; [lia | exact Hmd].
  - cbn [mutateAll]. unfold bind.
    destruct (mutate clock m e w) as [e1 w1] eqn:Hstep.
    pose proof (mutate_fields m e w Hmd) as (Hv & Hid & Hmd1).
    rewrite Hstep in Hv, Hid, Hmd1. cbn [fst] in Hv, Hid, Hmd1.
    destruct (IH e1 w1 Hmd1) as (Hv' & Hid' & Hmd').
    repeat split.
    + rewrite Hv', Hv. cbn [length]. lia.
    + rewrite Hid', Hid. reflexivity.
    + exact Hmd'.
Qed.

(** C2: an entity constructed without a version (or with the falsy 0, which
    [data.version || 1] replaces as well) starts at version 1, and
    after any sequence of [N] mutations ([markAsUpdated], [softDelete],
    [restore], [addMetadata], [removeMetadata]) its version is [1 + N]; in
    general the version after [N] mutations is the initial one plus [N], and
    one more mutation adds exactly one, so it never decreases or resets. *)
Theorem version_counts_mutations (data : EntityData) (ms : list Mutation)
    (m : Mutation) w :
  let '(e0, w0) := new_Entity nanoid clock data w in
  let '(eN, wN) := mutateAll clock ms e0 w0 in
  e_version eN = e_version e0 + Z.of_nat (length ms)
  /\ e_version (mutate clock m eN wN).1 = e_version eN + 1
  /\ (truthy_num (d_version data) = false ->
      e_version e0 = 1 /\ e_version eN = 1 + Z.of_nat (length ms)).
Proof.
  destruct (new_Entity nanoid clock data w) as [e0 w0] eqn:Hnew.
  destruct (mutateAll clock ms e0 w0) as [eN wN] eqn:Hrun.
  pose proof (new_Entity_fields data w) as (Hv0 & Hmd0).
  rewrite Hnew in Hv0, Hmd0. cbn [fst] in Hv0, Hmd0.
  pose proof (mutateAll_fields ms e0 w0 Hmd0) as (HvN & _ & HmdN).
  rewrite Hrun in HvN, HmdN. cbn [fst] in HvN, HmdN.
  pose proof (mutate_fields m eN wN HmdN) as (Hv1 & _).
  split; [exact HvN|]. split; [exact Hv1|].
  intros Hfresh.
  assert (Hone : e_version e0 = 1).
  { rewrite Hv0. unfold or_num. rewrite Hfresh. reflexivity. }
  split; [exact Hone|]. rewrite HvN, Hone. reflexivity.
Qed.

(** C7: on any entity, [softDelete] followed by [restore] leaves
    [deletedAt] unset ([isDeleted()] is false), keeps the id, and leaves the
    version two above the one held before the [softDelete]. *)
Theorem softDelete_then_restore e (u1 u2 : option UserId) w :
  let '(e1, w1) := softDelete clock u1 e w in
  let '(e2, w2) := restore clock u2 e1 w1 in
  isDeleted e1 = true
  /\ e_deletedAt e2 = DUndefined
  /\ isDeleted e2 = false
  /\ e_id e2 = e_id e
  /\ e_version e2 = e_version e + 2.
Proof.
  unfold softDelete, restore, markAsUpdated, bind, newDate, ret. cbn.
  repeat split. lia.
Qed.

(** [clone] goes through [toPlainObject], which hands over the metadata
    reference itself: no object is allocated. *)
Lemma clone_keeps_reference e w l :
  e_metadata e = Some l ->
  e_metadata (clone nanoid clock e w).1 = Some l
  /\ heap (clone nanoid clock e w).2 = heap w.
Proof.
  intros Hl. unfold clone, new_Entity, toPlainObject, bind, ret. cbn.
  rewrite Hl. destruct (negb (String.eqb (e_id e) "")); cbn; split; reflexivity.
Qed.

(** The copy is value-equal whenever the id and the version are truthy. *)
Lemma clone_equals e w :
  e_id e <> "" -> e_version e <> 0 ->
  equals (clone nanoid clock e w).1 e = true.
Proof.
  intros Hid Hv. unfold clone, new_Entity, toPlainObject, bind, ret, equals. cbn.
  destruct (String.eqb_spec (e_id e) "") as [Heq|_]; [contradiction|]. cbn.
  unfold or_num, truthy_num. cbn.
  destruct (Z.eqb_spec (e_version e) 0) as [Heq|_]; [contradiction|]. cbn.
  destruct (e_metadata e); cbn; rewrite String.eqb_refl, Z.eqb_refl; reflexivity.
Qed.

(** A key added through the clone is read back through the original. *)
Lemma clone_mutation_reaches_original e w l (o : obj) (k : string) (v : value) :
  e_metadata e = Some l -> heap w !! l = Some o ->
  let '(c, w1) := clone nanoid clock e w in
  let '(c', w2) := addMetadata clock k v c w1 in
  (getMetadata k e w2).1 = v.
Proof.
  intros Hl Ho.
  pose proof (clone_keeps_reference e w l Hl) as [Hcl Hheap].
  destruct (clone nanoid clock e w) as [c w1]. cbn [fst snd] in Hcl, Hheap.
  unfold addMetadata, markAsUpdated, getMetadata, modify, deref, bind, newDate, ret.
  rewrite Hcl, Hl, Hheap, Ho. cbn.
  rewrite list_lookup_insert_eq by (eapply lookup_lt_Some; exact Ho).
  cbn. rewrite lookup_insert_eq. reflexivity.
Qed.

End Facts.

(** C8: the clone of a freshly constructed entity is value-equal to it, but
    both hold the same metadata object: a key added through the clone is
    then read back through the original, and a key removed through the
    original disappears from the clone.  [createAuditTrail], in contrast,
    copies the object. *)
Theorem clone_shares_metadata :
  let '(e, w1) := new_Entity demoIds demoClock noData emptyWorld in
  let '(c, w2) := clone demoIds demoClock e w1 in
  let '(c1, w3) := addMetadata demoClock "role" (VStr "admin") c w2 in
  let '(a, w4) := createAuditTrail demoIds demoClock "UPDATE" None None e w3 in
  let '(e1, w5) := removeMetadata demoClock "role" e w4 in
  equals c e = true
  /\ e_metadata c = e_metadata e
  /\ (getMetadata "role" e w2).1 = VUndefined
  /\ (getMetadata "role" e w3).1 = VStr "admin"
  /\ (getMetadata "role" c1 w5).1 = VUndefined
  /\ at_metadata a <> e_metadata e
  /\ (a_md ← at_metadata a; o ← heap w5 !! a_md; o !! "role") = Some (VStr "admin").
Proof. vm_compute. repeat split; discriminate. Qed.

Lemma version_counts_mutations_witness :
  e_version
    (mutateAll demoClock
       [AddMetadata "k" (VNum 1); SoftDelete None; Restore (Some "u1");
        RemoveMetadata "k"; MarkAsUpdated None]
       (new_Entity demoIds demoClock noData emptyWorld).1
       (new_Entity demoIds demoClock noData emptyWorld).2).1 = 1 + 5.
Proof.
  pose proof (version_counts_mutations demoIds demoClock noData
    [AddMetadata "k" (VNum 1); SoftDelete None; Restore (Some "u1");
     RemoveMetadata "k"; MarkAsUpdated None] (MarkAsUpdated None) emptyWorld) as H.
  destruct (new_Entity demoIds demoClock noData emptyWorld) as [e0 w0].
  cbn [fst snd].
  destruct (mutateAll demoClock _ e0 w0) as [eN wN].
  destruct H as (_ & _ & H). destruct (H eq_refl) as [_ HN]. exact HN.
Defined.

End EntityFacts.

(** ** Error handling *)

Module ErrorsFacts.
Import Js Types Env Errors.

Definition generic : string := "Internal server error".

(** The arguments of the constructors of the five domain errors whose status
    is in the 4xx range and that [errorToResponse] has no branch for. *)
Inductive DomainArgs :=
| BusinessRuleArgs (message rule : string) (ruleParams : option (list (string * value)))
| ConcurrencyArgs (message : string) (expectedVersion actualVersion : Z)
| TimeoutArgs (message operation : string) (timeoutMs : Z)
| ResourceExhaustedArgs (message resource : string) (limit current : Z)
| InvariantViolationArgs (message invariant aggregateId aggregateType : string).

Definition messageOf (a : DomainArgs) : string :=
  match a with
  | BusinessRuleArgs m _ _ | ConcurrencyArgs m _ _ | TimeoutArgs m _ _
  | ResourceExhaustedArgs m _ _ _ | InvariantViolationArgs m _ _ _ => m
  end.

(** The status and the code that each of the five classes passes to
    [super(...)] in domain.ts. *)
Definition statusOf (a : DomainArgs) : Z :=
  match a with
  | BusinessRuleArgs _ _ _ => 422
  | ConcurrencyArgs _ _ _ => 409
  | TimeoutArgs _ _ _ => 408
  | ResourceExhaustedArgs _ _ _ _ => 429
  | InvariantViolationArgs _ _ _ _ => 422
  end.

Definition codeOf (a : DomainArgs) : string :=
  match a with
  | BusinessRuleArgs _ _ _ => "BUSINESS_RULE_ERROR"
  | ConcurrencyArgs _ _ _ => "CONCURRENCY_ERROR"
  | TimeoutArgs _ _ _ => "TIMEOUT_ERROR"
  | ResourceExhaustedArgs _ _ _ _ => "RESOURCE_EXHAUSTED"
  | InvariantViolationArgs _ _ _ _ => "INVARIANT_VIOLATION"
  end.

(** The message of a failure from outside the taxonomy: that of an [Error],
    a thrown string itself, and a fixed text for any other value. *)
Definition rawMessage (t : thrown) : string :=
  match t with
  | TError m => m
  | TValue (VStr s) => s
  | _ => "An unknown error occurred"
  end.

Definition construct (nanoid : nat -> string) (clock : nat -> Z) (a : DomainArgs)
    (context : option ErrorContext) : St BaseError :=
  match a with
  | BusinessRuleArgs m r p => new_BusinessRuleError nanoid clock m r p context
  | ConcurrencyArgs m x y => new_ConcurrencyError nanoid clock m x y context
  | TimeoutArgs m o t => new_TimeoutError nanoid clock m o t context
  | ResourceExhaustedArgs m r l c => new_ResourceExhaustedError nanoid clock m r l c context
  | InvariantViolationArgs m i a t => new_InvariantViolationError nanoid clock m i a t context
  end.

Definition demoIds (n : nat) : string := "trace-" +:+ String (Ascii.ascii_of_nat (97 + n)) "".
Definition demoClock (n : nat) : Z := 1700000000000 + Z.of_nat n.
Definition emptyWorld : World := {| heap := []; console := []; tick := 0 |}.

Section Facts.
Variable nanoid : nat -> string.
Variable clock : nat -> Z.
Implicit Types (t : thrown) (ctx : option ErrorContext) (w : World) (e : BaseError).

Local Ltac run :=
  unfold handleError, transformToBaseError, new_InternalServerError, new_BaseError,
    logError, errorToResponse, createServerErrorResponse, createErrorResponse,
    orGenerateTraceId, generateTraceId, getCurrentTimestamp, freshId, newDate,
    consoleError, Env.bind, Env.ret, shouldExposeMessage; cbn.

(** What a failure from outside the taxonomy is turned into. *)
Lemma transform_raw t ctx w :
  isBaseError t = false ->
  let p := (transformToBaseError nanoid clock t ctx w).1 in
  be_class p = InternalServerError
  /\ be_code p = "INTERNAL_SERVER_ERROR"
  /\ be_statusCode p = 500
  /\ be_message p = rawMessage t
  /\ be_name p = "InternalServerError".
Proof.
  intros Hraw. destruct t as [e|m|v]; [discriminate| |destruct v]; run;
    destruct (truthy_str (ec_traceId <$> ctx)); cbn; repeat split.
Qed.

(** [handleError] writes one record to the console, made of the fields of
    the error that [transformToBaseError] returns. *)
Lemma handleError_logs t ctx w :
  let p := (transformToBaseError nanoid clock t ctx w).1 in
  console (handleError nanoid clock t ctx w).2
  = console w ++ [{| ld_timestamp := clock (tick (transformToBaseError nanoid clock t ctx w).2);
                     ld_level := getSeverityLevel (getSeverity p);
                     ld_name := be_name p;
                     ld_code := be_code p;
                     ld_message := be_message p;
                     ld_statusCode := be_statusCode p;
                     ld_traceId := be_traceId p;
                     ld_context := ctx |}].
Proof.
  intros p. unfold handleError, Env.bind. subst p.
  assert (Hcons : console (transformToBaseError nanoid clock t ctx w).2 = console w).
  { destruct t as [e|m|v]; [reflexivity| |destruct v]; run;
      destruct (truthy_str (ec_traceId <$> ctx)); reflexivity. }
  destruct (transformToBaseError nanoid clock t ctx w) as [p w1].
  cbn [fst snd] in Hcons |- *.
  unfold logError, Env.bind, newDate, consoleError, advance.
  cbn [fst snd tick console heap].
  assert (Hresp : forall w2, console (errorToResponse nanoid clock p w2).2 = console w2).
  { intros w2. unfold errorToResponse, createValidationErrorResponse,
      createNotFoundResponse, createUnauthorizedResponse, createForbiddenResponse,
      createConflictResponse, createRateLimitResponse, createCodedResponse,
      createServerErrorResponse, createErrorResponse, orGenerateTraceId,
      generateTraceId, getCurrentTimestamp, freshId, newDate, advance, Env.bind, Env.ret.
    destruct (be_class p); cbn;
      repeat match goal with
             | |- context [truthy_str ?x] => destruct (truthy_str x); cbn
             | |- context [if ?b then _ else _] => destruct b; cbn
             end; reflexivity. }
  rewrite Hresp. cbn [console]. rewrite Hcons. reflexivity.
Qed.

(** The response to a raw failure does not depend on the failure. *)
Lemma raw_response_independent t t' ctx w :
  isBaseError t = false -> isBaseError t' = false ->
  (handleError nanoid clock t ctx w).1 = (handleError nanoid clock t' ctx w).1.
Proof.
  intros Ht Ht'.
  destruct t as [e|m|v]; [discriminate| |destruct v];
    (destruct t' as [e'|m'|v']; [discriminate| |destruct v']);
    run; destruct (truthy_str (ec_traceId <$> ctx)); cbn;
    repeat match goal with
           | |- context [truthy_str ?x] => destruct (truthy_str x); cbn
           | |- context [negb (String.eqb ?a ?b)] =>
               destruct (negb (String.eqb a b)); cbn
           end;
    reflexivity.
Qed.

(** C3 (amended): a failure [t] that is not a taxonomy error is coerced to
    an [InternalServerError] with code INTERNAL_SERVER_ERROR, status 500 and
    the message of [t]; [handleError] writes exactly one console record, at
    level error, with that code, that status and the message of [t]; the
    response has [success = false] and both its [error] and [message]
    fields are the generic 'Internal server error'; it is the same response
    whatever the failure was, so the message of [t] is not in it.  The code
    is on the coerced error and in the console record; the response has no
    field for a code. *)
Theorem raw_failure_response t ctx w :
  isBaseError t = false ->
  let p := (transformToBaseError nanoid clock t ctx w).1 in
  let r := (handleError nanoid clock t ctx w).1 in
  let w' := (handleError nanoid clock t ctx w).2 in
  (be_class p = InternalServerError
   /\ be_code p = "INTERNAL_SERVER_ERROR"
   /\ be_statusCode p = 500
   /\ be_message p = rawMessage t)
  /\ (exists d, console w' = console w ++ [d]
                /\ ld_level d = "error"
                /\ ld_name d = "InternalServerError"
                /\ ld_code d = "INTERNAL_SERVER_ERROR"
                /\ ld_message d = rawMessage t
                /\ ld_statusCode d = 500
                /\ ld_context d = ctx)
  /\ ar_success r = false
  /\ ar_error r = Some generic
  /\ ar_message r = Some generic
  /\ (forall t', isBaseError t' = false -> (handleError nanoid clock t' ctx w).1 = r).
Proof.
  intros Hraw p r w'.
  pose proof (transform_raw t ctx w Hraw) as (Hc & Hcode & Hst & Hmsg & Hname).
  fold p in Hc, Hcode, Hst, Hmsg, Hname.
  split; [repeat split; assumption|].
  split.
  { eexists. split; [apply handleError_logs|]. cbn [ld_level ld_name ld_code ld_message
      ld_statusCode ld_context]. fold p. unfold getSeverity.
    rewrite Hc, Hcode, Hst, Hmsg, Hname. repeat split. }
  assert (Hfields : ar_success r = false /\ ar_error r = Some generic
                    /\ ar_message r = Some generic).
  { subst r. unfold handleError, Env.bind. subst p.
    destruct (transformToBaseError nanoid clock t ctx w) as [p w1]. cbn [fst] in *.
    unfold logError, Env.bind, newDate, consoleError. cbn.
    unfold errorToResponse, shouldExposeMessage. rewrite Hc, Hst. cbn.
    unfold createServerErrorResponse, createErrorResponse, orGenerateTraceId,
      generateTraceId, getCurrentTimestamp, freshId, newDate, Env.bind, Env.ret. cbn.
    destruct (negb (String.eqb (be_traceId p) "")); cbn; repeat split. }
  destruct Hfields as (Hs & He & Hm).
  repeat split; try assumption.
  intros t' Ht'. exact (raw_response_independent t' t ctx w Ht' Hraw).
Qed.

(** What [errorToResponse] does with an error that reaches its last branch
    with a 4xx status. *)
Lemma exposed_by_default_branch e w :
  match be_class e with
  | InternalServerError | DatabaseError _ _ | NetworkError _ _
  | BusinessRuleError _ _ | ConcurrencyError _ _ | InvariantViolationError _ _ _
  | ResourceExhaustedError _ _ _ | TimeoutError _ _ => True
  | _ => False
  end ->
  400 <= be_statusCode e < 500 ->
  errorToResponse nanoid clock e w
  = createServerErrorResponse nanoid clock (Some (be_message e)) (Some (be_traceId e)) w.
Proof.
  intros Hcls Hst. unfold errorToResponse, shouldExposeMessage.
  assert (Hexp : (400 <=? be_statusCode e) && (be_statusCode e <? 500) = true).
  { apply andb_true_iff. split; [apply Z.leb_le | apply Z.ltb_lt]; lia. }
  rewrite Hexp. destruct (be_class e); try contradiction; reflexivity.
Qed.

Lemma construct_fields (a : DomainArgs) ctx w :
  let e := (construct nanoid clock a ctx w).1 in
  be_message e = messageOf a
  /\ be_statusCode e = statusOf a
  /\ be_code e = codeOf a
  /\ match be_class e with
     | BusinessRuleError _ _ | ConcurrencyError _ _ | InvariantViolationError _ _ _
     | ResourceExhaustedError _ _ _ | TimeoutError _ _ => True
     | _ => False
     end.
Proof.
  destruct a; cbn [construct];
    unfold new_BusinessRuleError, new_ConcurrencyError, new_TimeoutError,
      new_ResourceExhaustedError, new_InvariantViolationError, new_BaseError,
      orGenerateTraceId, generateTraceId, freshId, newDate, Env.bind, Env.ret;
    destruct (truthy_str (ec_traceId <$> ctx)); cbn;
    repeat split.
Qed.

(** The trace id and the creation time of a constructed error come from the
    context and the world, not from the other arguments. *)
Lemma construct_traceId (a a' : DomainArgs) ctx w :
  be_traceId (construct nanoid clock a ctx w).1
  = be_traceId (construct nanoid clock a' ctx w).1.
Proof.
  destruct a, a'; cbn [construct];
    unfold new_BusinessRuleError, new_ConcurrencyError, new_TimeoutError,
      new_ResourceExhaustedError, new_InvariantViolationError, new_BaseError,
      orGenerateTraceId, generateTraceId, freshId, newDate, Env.bind, Env.ret;
    destruct (truthy_str (ec_traceId <$> ctx)); reflexivity.
Qed.

Lemma statusOf_4xx (a : DomainArgs) : 400 <= statusOf a < 500.
Proof. destruct a; cbn; lia. Qed.

Lemma codeOf_own (a : DomainArgs) : codeOf a <> "INTERNAL_SERVER_ERROR".
Proof. destruct a; discriminate. Qed.

(** The response to an error that reaches the last branch of
    [errorToResponse] with a 4xx status. *)
Lemma handle_default_branch e ctx w :
  match be_class e with
  | InternalServerError | DatabaseError _ _ | NetworkError _ _
  | BusinessRuleError _ _ | ConcurrencyError _ _ | InvariantViolationError _ _ _
  | ResourceExhaustedError _ _ _ | TimeoutError _ _ => True
  | _ => False
  end ->
  400 <= be_statusCode e < 500 ->
  (handleError nanoid clock (TBase e) ctx w).1
  = {| ar_success := false;
       ar_error := Some (be_message e);
       ar_message := Some (be_message e);
       ar_timestamp := clock (if negb (String.eqb (be_traceId e) "")
                              then S (tick w) else S (S (tick w)));
       ar_traceId := if negb (String.eqb (be_traceId e) "")
                     then be_traceId e else nanoid (S (tick w)) |}.
Proof.
  intros Hcls Hst.
  unfold handleError, transformToBaseError, Env.bind, Env.ret.
  unfold logError, Env.bind, newDate, consoleError. cbn [fst snd tick console heap].
  rewrite exposed_by_default_branch by assumption.
  unfold createServerErrorResponse, createErrorResponse, orGenerateTraceId,
    generateTraceId, getCurrentTimestamp, freshId, newDate, advance, Env.bind, Env.ret.
  cbn.
  destruct (negb (String.eqb (be_traceId e) "")); cbn;
    destruct (String.eqb (be_message e) ""); cbn; try reflexivity.
Qed.

(** C10 (amended): for a BusinessRule (422), Concurrency (409), Timeout
    (408), ResourceExhausted (429) or InvariantViolation (422) error,
    [handleError] answers with [success = false] and the error's own
    message, verbatim, in both [error] and [message].  The response carries
    no error code: it is the same response for any two of these errors with
    the same message, whatever their class and code.  The error's own code,
    which is not INTERNAL_SERVER_ERROR, goes to the console record, with the
    message and the status. *)
Theorem unhandled_4xx_response (a : DomainArgs) (ctx0 ctx : option ErrorContext)
    (w0 w : World) :
  let e := (construct nanoid clock a ctx0 w0).1 in
  let r := (handleError nanoid clock (TBase e) ctx w).1 in
  let w' := (handleError nanoid clock (TBase e) ctx w).2 in
  (be_statusCode e = statusOf a
   /\ be_code e = codeOf a
   /\ be_message e = messageOf a
   /\ codeOf a <> "INTERNAL_SERVER_ERROR")
  /\ ar_success r = false
  /\ ar_error r = Some (messageOf a)
  /\ ar_message r = Some (messageOf a)
  /\ (forall a', messageOf a' = messageOf a ->
        (handleError nanoid clock
           (TBase (construct nanoid clock a' ctx0 w0).1) ctx w).1 = r)
  /\ (exists d, console w' = console w ++ [d]
                /\ ld_code d = codeOf a
                /\ ld_message d = messageOf a
                /\ ld_statusCode d = statusOf a
                /\ ld_context d = ctx).
Proof.
  intros e r w'.
  assert (Hresp : forall b,
             (handleError nanoid clock (TBase (construct nanoid clock b ctx0 w0).1) ctx w).1
             = {| ar_success := false;
                  ar_error := Some (messageOf b);
                  ar_message := Some (messageOf b);
                  ar_timestamp :=
                    clock (if negb (String.eqb (be_traceId e) "")
                           then S (tick w) else S (S (tick w)));
                  ar_traceId := if negb (String.eqb (be_traceId e) "")
                                then be_traceId e else nanoid (S (tick w)) |}).
  { intros b.
    pose proof (construct_fields b ctx0 w0) as (Hm & Hst & _ & Hcls).
    cbn zeta in Hm, Hst, Hcls.
    rewrite handle_default_branch.
    - rewrite Hm. unfold e. rewrite (construct_traceId b a ctx0 w0). reflexivity.
    - destruct (be_class (construct nanoid clock b ctx0 w0).1);
        try contradiction; exact I.
    - rewrite Hst. apply statusOf_4xx. }
  pose proof (construct_fields a ctx0 w0) as (Hm & Hst & Hcode & _).
  fold e in Hm, Hst, Hcode.
  split; [repeat split; try assumption; apply codeOf_own|].
  pose proof (Hresp a) as Ha. fold e in Ha. fold r in Ha.
  rewrite Ha. cbn [ar_success ar_error ar_message].
  split; [reflexivity|]. split; [reflexivity|]. split; [reflexivity|].
  split.
  - intros a' Ha'. rewrite (Hresp a'), Ha'. reflexivity.
  - eexists. split; [apply handleError_logs|].
    cbn [ld_code ld_message ld_statusCode ld_context].
    unfold transformToBaseError, Env.ret. cbn [fst]. fold e.
    rewrite Hm, Hst, Hcode. repeat split.
Qed.

End Facts.

Lemma raw_failure_response_witness :
  ar_error (handleError demoIds demoClock (TError "boom") None emptyWorld).1
  = Some generic.
Proof.
  destruct (raw_failure_response demoIds demoClock (TError "boom") None emptyWorld
              eq_refl) as (_ & _ & _ & He & _).
  exact He.
Defined.

(** C3 as stated fails: the response to [new Error('boom')] holds the generic
    message in its [error] field, and the string INTERNAL_SERVER_ERROR is in
    none of its fields. *)
Lemma raw_failure_response_carries_no_code :
  let r := (handleError demoIds demoClock (TError "boom") None emptyWorld).1 in
  ar_error r = Some "Internal server error"
  /\ ar_error r <> Some "INTERNAL_SERVER_ERROR"
  /\ existsb (String.eqb "INTERNAL_SERVER_ERROR") (responseStrings r) = false.
Proof. vm_compute. repeat split. discriminate. Qed.

(** C10 as stated fails: the response to a [ConcurrencyError] holds the
    error's message in its [error] field, and the string
    INTERNAL_SERVER_ERROR is in none of its fields. *)
Lemma unhandled_4xx_response_carries_no_code :
  let e := (new_ConcurrencyError demoIds demoClock "version mismatch" 1 2 None
              emptyWorld).1 in
  let r := (handleError demoIds demoClock (TBase e) None emptyWorld).1 in
  be_code e = "CONCURRENCY_ERROR"
  /\ ar_error r = Some "version mismatch"
  /\ ar_error r <> Some "INTERNAL_SERVER_ERROR"
  /\ existsb (String.eqb "INTERNAL_SERVER_ERROR") (responseStrings r) = false.
Proof. vm_compute. repeat split. discriminate. Qed.

End ErrorsFacts.

(** ** Repository: soft delete on the read paths *)

Module RepositoryFacts.
Import Js Types Errors Eff Repository.

(** Is this the condition [{field: 'deletedAt', operator: 'isNull'}]? *)
Definition isDeleteFilter (c : FilterCondition) : bool :=
  String.eqb (fc_field c) "deletedAt"
  && match fc_operator c with op_isNull => true | _ => false end.

(** The criteria have the condition among their conditions and combine them
    with AND ([logic] defaults to AND). *)
Definition inTopLevelAnd (c : FilterCriteria) : bool :=
  match logic c with Some OR => false | _ => true end
  && existsb isDeleteFilter (default [] (conditions c)).

(** Does this storage call carry such criteria? *)
Definition filteredAtStorage {TC TU : Type} (c : @StorageCall TC TU) : bool :=
  match c with
  | ExecuteFindMany f _ => inTopLevelAnd f
  | ExecuteCount (Some f) => inTopLevelAnd f
  | _ => false
  end.

(** The caller's criteria with the condition appended to [conditions], and
    the criteria that hold the condition alone. *)
Definition withCondition (c : FilterCriteria) : FilterCriteria :=
  mkCriteria (Some (default [] (conditions c) ++ [deleteFilter]))
             (logic c) (groups c).

Definition onlyCondition : FilterCriteria :=
  mkCriteria (Some [deleteFilter]) None None.

(** [options?.withDeleted] is not set and the repository soft-deletes. *)
Definition hidesDeleted (config : RepositoryConfig) (options : option FindOptions) : bool :=
  truthy_bool (rc_softDelete config) && negb (truthy_bool (options ≫= fo_withDeleted)).

Lemma applySoftDeleteFilter_active config (criteria : option FilterCriteria) options :
  hidesDeleted config options = true ->
  applySoftDeleteFilter config criteria options
  = match criteria with
    | None => mkCriteria (Some [deleteFilter]) None None
    | Some c => mkCriteria (Some (default [] (conditions c) ++ [deleteFilter])%list)
                           (logic c) (groups c)
    end.
Proof.
  unfold hidesDeleted, applySoftDeleteFilter. intros H.
  apply andb_true_iff in H as [Hs Hw]. apply negb_true_iff in Hw.
  rewrite Hs, Hw. reflexivity.
Qed.

Lemma applySoftDeleteFilter_inactive config (criteria : option FilterCriteria) options :
  hidesDeleted config options = false ->
  applySoftDeleteFilter config criteria options = default emptyCriteria criteria.
Proof.
  unfold hidesDeleted, applySoftDeleteFilter. intros H.
  destruct (truthy_bool (rc_softDelete config)),
    (truthy_bool (options ≫= fo_withDeleted)); try discriminate; reflexivity.
Qed.


Lemma withCondition_and (c : FilterCriteria) :
  logic c <> Some OR -> inTopLevelAnd (withCondition c) = true.
Proof.
  intros Hl. unfold inTopLevelAnd, withCondition. destruct c as [cs l g]; cbn in *.
  apply andb_true_iff. split.
  - destruct l as [[]|]; congruence.
  - rewrite existsb_app. cbn. apply orb_true_r.
Qed.

Section Facts.
Context {TEntity TCreateInput TUpdateInput U : Type}.
Variable nanoid : nat -> string.
Variable config : RepositoryConfig.
Variable this : @Adapter TEntity TCreateInput TUpdateInput U.

Local Abbreviation W := (World U (@StorageCall TCreateInput TUpdateInput)).

Local Ltac run :=
  unfold rethrow, call, record, lift, tryCatch, both, generateTraceId, bind, ret, raise;
  cbn [user calls tick].

Local Ltac outcome f :=
  match goal with
  | |- context [f ?u] =>
      let r := fresh "r" in let u1 := fresh "u" in
      destruct (f u) as [[r|r] u1]; cbn [user calls tick fst snd]
  end.

(** [findMany] makes one storage call, with the criteria that
    [applySoftDeleteFilter] returns. *)
Lemma findMany_calls (criteria : FilterCriteria) options (w : W) :
  calls (findMany nanoid config this criteria options w).2
  = calls w ++ [ExecuteFindMany (applySoftDeleteFilter config (Some criteria) options)
                                options].
Proof.
  unfold findMany. run.
  outcome (executeFindMany this (applySoftDeleteFilter config (Some criteria) options)
             options); [|reflexivity].
  match goal with |- context [onError this ?a ?b ?c ?u] =>
    destruct (onError this a b c u) as [[?|?] ?] end; reflexivity.
Qed.

(** [count] makes one storage call; it has no options to opt out with. *)
Lemma count_calls (criteria : option FilterCriteria) (w : W) :
  calls (count nanoid config this criteria w).2
  = calls w ++ [ExecuteCount (Some (applySoftDeleteFilter config criteria None))].
Proof.
  unfold count. run.
  outcome (executeCount this (Some (applySoftDeleteFilter config criteria None)));
    [|reflexivity].
  match goal with |- context [onError this ?a ?b ?c ?u] =>
    destruct (onError this a b c u) as [[?|?] ?] end; reflexivity.
Qed.

(** [list] makes two storage calls with the same criteria. *)
Lemma list_calls (options : ListOptions) (w : W) :
  let enhanced := applySoftDeleteFilter config
                    (Some (default emptyCriteria (lo_filter options)))
                    (Some (lo_find options)) in
  calls (list_ config this options w).2
  = calls w ++ [ExecuteFindMany enhanced (Some (lo_find options));
                ExecuteCount (Some enhanced)].
Proof.
  intros enhanced. unfold list_. fold enhanced. run.
  destruct (executeFindMany this enhanced (Some (lo_find options)) (user w))
    as [[e1|xs] u1]; cbn [user calls tick];
  destruct (executeCount this (Some enhanced) u1) as [[e2|n] u2]; cbn [calls snd];
  rewrite <- app_assoc; reflexivity.
Qed.

(** [findById] makes one storage call, and that call takes no criteria. *)
Lemma findById_calls (id : EntityId) options (w : W) :
  calls (findById nanoid config this id options w).2
  = calls w ++ [ExecuteFindById id options].
Proof.
  unfold findById. run.
  outcome (executeFindById this id options).
  - match goal with |- context [onError this ?a ?b ?c ?u] =>
      destruct (onError this a b c u) as [[?|?] ?] end; reflexivity.
  - destruct r as [e|]; [|reflexivity].
    destruct (truthy_bool (rc_softDelete config)
              && negb (truthy_bool (options ≫= fo_withDeleted)));
      [destruct (isDeleted this e)|]; reflexivity.
Qed.

(** [findById] hides a soft-deleted entity after the storage returned it. *)
Lemma findById_hides (id : EntityId) options (w : W) (e : TEntity) (u1 : U) :
  executeFindById this id options (user w) = (inr (Some e), u1) ->
  (findById nanoid config this id options w).1
  = inr (if hidesDeleted config options && isDeleted this e then None else Some e).
Proof.
  intros Hst. unfold findById, hidesDeleted. run. rewrite Hst. cbn.
  destruct (truthy_bool (rc_softDelete config)
            && negb (truthy_bool (options ≫= fo_withDeleted)));
    [destruct (isDeleted this e)|]; reflexivity.
Qed.

(** When soft delete hides nothing, the caller's criteria pass through. *)
Lemma findMany_passthrough (criteria : FilterCriteria) options (w : W) :
  hidesDeleted config options = false ->
  calls (findMany nanoid config this criteria options w).2
  = calls w ++ [ExecuteFindMany criteria options].
Proof.
  intros H. rewrite findMany_calls.
  rewrite (applySoftDeleteFilter_inactive config (Some criteria) options H).
  reflexivity.
Qed.

(** C1 (amended): with soft delete enabled and [withDeleted] not set,
    [findMany], [count] and [list] hand to their storage primitive the
    caller's criteria with the condition [deletedAt isNull] appended to
    [conditions] (the condition alone when [count] is given no criteria),
    which puts the condition in the top-level AND; this is stated for
    criteria that do not ask for OR.  [count] takes no options, so only the
    configuration decides for it.  With [withDeleted] set or soft delete
    disabled the three hand over the caller's criteria unmodified ([{}] when
    there are none).  [findById] hands no criteria to storage: it calls
    [executeFindById] with the caller's arguments and replaces a
    soft-deleted entity by null afterwards. *)
Theorem soft_delete_on_read_paths (criteria : FilterCriteria)
    (counted : option FilterCriteria) (options : option FindOptions)
    (listOptions : ListOptions) (id : EntityId) (w : W) :
  let filter := default emptyCriteria (lo_filter listOptions) in
  let listFind := Some (lo_find listOptions) in
  (* injection at the storage layer *)
  (hidesDeleted config options = true -> logic criteria <> Some OR ->
     calls (findMany nanoid config this criteria options w).2
       = calls w ++ [ExecuteFindMany (withCondition criteria) options]
     /\ inTopLevelAnd (withCondition criteria) = true)
  /\ (truthy_bool (rc_softDelete config) = true -> (counted ≫= logic) <> Some OR ->
     calls (count nanoid config this counted w).2
       = calls w ++ [ExecuteCount (Some (from_option withCondition onlyCondition counted))]
     /\ inTopLevelAnd (from_option withCondition onlyCondition counted) = true)
  /\ (hidesDeleted config listFind = true -> logic filter <> Some OR ->
     calls (list_ config this listOptions w).2
       = calls w ++ [ExecuteFindMany (withCondition filter) listFind;
                     ExecuteCount (Some (withCondition filter))]
     /\ inTopLevelAnd (withCondition filter) = true)
  (* pass-through *)
  /\ (hidesDeleted config options = false ->
     calls (findMany nanoid config this criteria options w).2
       = calls w ++ [ExecuteFindMany criteria options])
  /\ (truthy_bool (rc_softDelete config) = false ->
     calls (count nanoid config this counted w).2
       = calls w ++ [ExecuteCount (Some (default emptyCriteria counted))])
  /\ (hidesDeleted config listFind = false ->
     calls (list_ config this listOptions w).2
       = calls w ++ [ExecuteFindMany filter listFind; ExecuteCount (Some filter)])
  (* findById *)
  /\ calls (findById nanoid config this id options w).2
     = calls w ++ [ExecuteFindById id options]
  /\ (forall found u1,
        executeFindById this id options (user w) = (inr found, u1) ->
        (findById nanoid config this id options w).1
        = inr (match found with
               | Some e => if hidesDeleted config options && isDeleted this e
                           then None else Some e
               | None => None
               end)).
Proof.
  intros filter listFind.
  assert (Hcount : forall b, truthy_bool (rc_softDelete config) = b ->
                             hidesDeleted config None = b).
  { intros b Hb. unfold hidesDeleted. rewrite Hb. cbn. apply andb_true_r. }
  repeat apply conj.
  - intros H Hl. rewrite findMany_calls.
    rewrite (applySoftDeleteFilter_active config (Some criteria) options H).
    split; [reflexivity | exact (withCondition_and criteria Hl)].
  - intros H Hl. rewrite count_calls.
    rewrite (applySoftDeleteFilter_active config counted None (Hcount true H)).
    split; [destruct counted; reflexivity|].
    destruct counted as [c|]; [exact (withCondition_and c Hl) | reflexivity].
  - intros H Hl. rewrite list_calls. fold filter listFind.
    rewrite (applySoftDeleteFilter_active config (Some filter) listFind H).
    split; [reflexivity | exact (withCondition_and filter Hl)].
  - apply findMany_passthrough.
  - intros H. rewrite count_calls.
    rewrite (applySoftDeleteFilter_inactive config counted None (Hcount false H)).
    reflexivity.
  - intros H. rewrite list_calls. fold filter listFind.
    rewrite (applySoftDeleteFilter_inactive config (Some filter) listFind H).
    reflexivity.
  - apply findById_calls.
  - intros found u1 Hst. destruct found as [e|].
    + apply (findById_hides id options w e u1 Hst).
    + unfold findById, rethrow, call, record, lift, tryCatch, generateTraceId,
        bind, ret. cbn [user calls tick]. rewrite Hst. reflexivity.
Qed.

End Facts.

(** A storage that holds one entity, soft-deleted, and ignores criteria. *)
Definition Row : Type := string * optdate.

Definition stored : Row := ("e1", DDate 1700000000000).

Definition demoAdapter : @Adapter Row unit unit unit :=
  {| deletedAtOf := snd;
     executeCreate := fun _ _ u => (inr stored, u);
     executeFindById := fun id _ u =>
       (inr (if String.eqb id "e1" then Some stored else None), u);
     executeFindMany := fun _ _ u => (inr [stored], u);
     executeUpdate := fun _ _ _ u => (inr stored, u);
     executeDelete := fun _ _ u => (inr tt, u);
     executeCount := fun _ u => (inr 1, u);
     executeSearch := fun _ u => (inr {| sr_data := [stored]; sr_total := 1 |}, u);
     beforeCreate := fun _ _ u => (inr tt, u);
     afterCreate := fun _ _ u => (inr tt, u);
     beforeUpdate := fun _ _ _ u => (inr tt, u);
     afterUpdate := fun _ _ u => (inr tt, u);
     beforeDelete := fun _ _ u => (inr tt, u);
     afterDelete := fun _ _ u => (inr tt, u);
     onError := fun _ _ _ u => (inr tt, u) |}.

Definition demoConfig : RepositoryConfig :=
  new_config noConfig.

Definition demoIds (n : nat) : string := "trace".

Definition start : World unit (@StorageCall unit unit) :=
  {| user := tt; calls := []; tick := 0 |}.

Definition activeOnly : FilterCriteria :=
  mkCriteria
    (Some [{| fc_field := "status"; fc_operator := op_eq;
              fc_value := Some (VStr "active"); fc_values := None |}])
    None None.

Definition eitherStatus : FilterCriteria :=
  mkCriteria
    (Some [{| fc_field := "status"; fc_operator := op_eq;
              fc_value := Some (VStr "active"); fc_values := None |};
           {| fc_field := "status"; fc_operator := op_eq;
              fc_value := Some (VStr "pending"); fc_values := None |}])
    (Some OR) None.

Definition noListOptions : ListOptions :=
  {| lo_find := {| fo_include := None; fo_exclude := None;
                   fo_withDeleted := None; fo_forUpdate := None |};
     lo_pagination := {| po_page := None; po_limit := None;
                         po_offset := None; po_cursor := None |};
     lo_sort := None; lo_filter := None; lo_search := None |}.

Lemma soft_delete_on_read_paths_witness :
  calls (findMany demoIds demoConfig demoAdapter activeOnly None start).2
  = [ExecuteFindMany (withCondition activeOnly) None]
  /\ calls (count demoIds demoConfig demoAdapter None start).2
     = [ExecuteCount (Some onlyCondition)]
  /\ (findById demoIds demoConfig demoAdapter "e1" None start).1 = inr None.
Proof.
  destruct (soft_delete_on_read_paths demoIds demoConfig demoAdapter activeOnly None
              None noListOptions "e1" start)
    as (Hmany & Hcount & _ & _ & _ & _ & _ & Hfind).
  split; [|split].
  - apply Hmany; [reflexivity | discriminate].
  - apply Hcount; [reflexivity | discriminate].
  - apply (Hfind (Some stored) tt). reflexivity.
Defined.

(** C1 as stated fails twice.  On [findById]: its only storage call carries
    no criteria, the storage returns the soft-deleted entity, and the null
    result is produced afterwards, in memory.  On [findMany] with criteria
    whose logic is OR: the condition reaches storage as one more
    alternative of the OR, not in a top-level AND. *)
Lemma not_every_read_path_filters_at_storage :
  (calls (findById demoIds demoConfig demoAdapter "e1" None start).2
   = [ExecuteFindById "e1" None]
   /\ forallb filteredAtStorage
        (calls (findById demoIds demoConfig demoAdapter "e1" None start).2) = false
   /\ executeFindById demoAdapter "e1" None tt = (inr (Some stored), tt)
   /\ (findById demoIds demoConfig demoAdapter "e1" None start).1 = inr None)
  /\ (logic eitherStatus = Some OR
      /\ calls (findMany demoIds demoConfig demoAdapter eitherStatus None start).2
         = [ExecuteFindMany
              (mkCriteria (Some (default [] (conditions eitherStatus) ++ [deleteFilter]))
                          (Some OR) None) None]
      /\ forallb filteredAtStorage
           (calls (findMany demoIds demoConfig demoAdapter eitherStatus None start).2)
         = false).
Proof. vm_compute. repeat split. Qed.

End RepositoryFacts.

(** ** Service: validation precedes mutation *)

Module ServiceFacts.
Import Js Types Errors Eff Service.

#[global] Instance Hook_eq_dec : EqDecision Hook.
Proof. solve_decision. Defined.

#[global] Instance RepoMethod_eq_dec : EqDecision RepoMethod.
Proof. solve_decision. Defined.

#[global] Instance ServiceCall_eq_dec : EqDecision ServiceCall.
Proof. solve_decision. Defined.

(** In the trace [tr], is every call [target] preceded by a call [guard]?
    [seen] tells whether [guard] occurred before [tr]. *)
Fixpoint guardedFrom (guard target : ServiceCall) (seen : bool)
    (tr : list ServiceCall) : bool :=
  match tr with
  | [] => true
  | c :: rest =>
      if bool_decide (c = target)
      then seen && guardedFrom guard target seen rest
      else guardedFrom guard target (seen || bool_decide (c = guard)) rest
  end.

Definition guarded (guard target : ServiceCall) (tr : list ServiceCall) : bool :=
  guardedFrom guard target false tr.

Lemma guardedFrom_sound guard target seen tr pre post :
  guardedFrom guard target seen tr = true ->
  tr = pre ++ target :: post ->
  seen = true \/ In guard pre.
Proof.
  revert seen tr. induction pre as [|c pre IH]; intros seen tr Hg ->.
  - cbn in Hg. rewrite bool_decide_eq_true_2 in Hg by reflexivity.
    apply andb_true_iff in Hg as [Hs _]. left. exact Hs.
  - cbn in Hg. destruct (bool_decide (c = target)).
    + apply andb_true_iff in Hg as [Hs _]. left. exact Hs.
    + destruct (IH _ _ Hg eq_refl) as [Hs|Hin].
      * apply orb_true_iff in Hs as [Hs|Hc]; [left; exact Hs|].
        right. left. apply bool_decide_eq_true_1 in Hc. exact Hc.
      * right. right. exact Hin.
Qed.

Lemma guarded_sound guard target tr pre post :
  guarded guard target tr = true ->
  tr = pre ++ target :: post ->
  In guard pre.
Proof.
  intros Hg Htr.
  destruct (guardedFrom_sound guard target false tr pre post Hg Htr) as [H|H];
    [discriminate | exact H].
Qed.

Section Facts.
Context {TEntity TCreateInput TUpdateInput U : Type}.
Variable nanoid : nat -> string.
Variable config : ServiceConfig.
Variable repository : @IRepository TEntity TCreateInput TUpdateInput U.
Variable this : @Hooks TEntity TCreateInput TUpdateInput U.
Hypothesis validation_on : truthy_bool (sc_validation config) = true.

Local Abbreviation W := (World U ServiceCall).

Local Ltac run :=
  unfold rethrow, call, record, lift, tryCatch, generateTraceId, bind, ret, raise;
  cbn [user calls tick].

Local Ltac step :=
  match goal with
  | |- context [match ?f ?u with _ => _ end] =>
      lazymatch type of u with
      | U => let r := fresh "r" in let u1 := fresh "u" in
             destruct (f u) as [[r|r] u1] eqn:?; cbn [user calls tick fst snd]
      end
  | |- context [let '(_, _) := ?f ?u in _] =>
      lazymatch type of u with
      | U => let r := fresh "r" in let u1 := fresh "u" in
             destruct (f u) as [[r|r] u1] eqn:?; cbn [user calls tick fst snd]
      end
  end.

Local Ltac finish :=
  eexists; split; [rewrite <- ?app_assoc; cbn [app]; reflexivity | reflexivity].

(** Every run of [create] appends a trace in which the repository call, if
    any, comes after the validation hook. *)
Lemma create_trace (data : TCreateInput) options (w : W) :
  exists tr,
    calls (create nanoid config repository this data options w).2 = calls w ++ tr
    /\ guarded (HookCall ValidateCreate) (RepoCall RepoCreate) tr = true.
Proof.
  unfold create. rewrite validation_on. run.
  repeat step; finish.
Qed.

Lemma update_trace (id : EntityId) (data : TUpdateInput) options (w : W) :
  exists tr,
    calls (update nanoid config repository this id data options w).2 = calls w ++ tr
    /\ guarded (HookCall ValidateUpdate) (RepoCall RepoUpdate) tr = true.
Proof.
  unfold update. rewrite validation_on. run.
  repeat step; finish.
Qed.

(** When the validation hook raises, [create] ends after the error hook. *)
Lemma create_aborted (data : TCreateInput) options (w : W) u1 u2 err :
  beforeCreate this data options (user w) = (inr tt, u1) ->
  validateCreate this data options u1 = (inl err, u2) ->
  let handled := onError this "create" err
                   (InCreate data options (nanoid (tick w))) u2 in
  calls (create nanoid config repository this data options w).2
  = calls w ++ [HookCall BeforeCreate; HookCall ValidateCreate; HookCall OnError]
  /\ (create nanoid config repository this data options w).1
     = match handled.1 with
       | inr _ => inl err
       | inl err' => inl err'
       end
  /\ user (create nanoid config repository this data options w).2 = handled.2.
Proof.
  intros Hb Hv handled. subst handled. unfold create. rewrite validation_on. run.
  rewrite Hb. cbn. rewrite Hv. cbn.
  destruct (onError this "create" err (InCreate data options (nanoid (tick w))) u2)
    as [[e'|[]] u3]; cbn; rewrite <- !app_assoc; repeat split; reflexivity.
Qed.

Lemma update_aborted (id : EntityId) (data : TUpdateInput) options (w : W) u1 u2 err :
  beforeUpdate this id data options (user w) = (inr tt, u1) ->
  validateUpdate this id data options u1 = (inl err, u2) ->
  let handled := onError this "update" err
                   (InUpdate id data options (nanoid (tick w))) u2 in
  calls (update nanoid config repository this id data options w).2
  = calls w ++ [HookCall BeforeUpdate; HookCall ValidateUpdate; HookCall OnError]
  /\ (update nanoid config repository this id data options w).1
     = match handled.1 with
       | inr _ => inl err
       | inl err' => inl err'
       end
  /\ user (update nanoid config repository this id data options w).2 = handled.2.
Proof.
  intros Hb Hv handled. subst handled. unfold update. rewrite validation_on. run.
  rewrite Hb. cbn. rewrite Hv. cbn.
  destruct (onError this "update" err (InUpdate id data options (nanoid (tick w))) u2)
    as [[e'|[]] u3]; cbn; rewrite <- !app_assoc; repeat split; reflexivity.
Qed.

(** When every hook returns, [create] hands the caller's arguments to the
    repository at the state the validation hook left, and returns the
    repository's entity. *)
Lemma create_delegates (data : TCreateInput) options (w : W) u1 u2 u3 u4 entity :
  beforeCreate this data options (user w) = (inr tt, u1) ->
  validateCreate this data options u1 = (inr tt, u2) ->
  repo_create repository data options u2 = (inr entity, u3) ->
  afterCreate this entity options u3 = (inr tt, u4) ->
  (create nanoid config repository this data options w).1 = inr entity
  /\ calls (create nanoid config repository this data options w).2
     = calls w ++ [HookCall BeforeCreate; HookCall ValidateCreate;
                   RepoCall RepoCreate; HookCall AfterCreate]
  /\ user (create nanoid config repository this data options w).2 = u4.
Proof.
  intros Hb Hv Hr Ha. unfold create. rewrite validation_on. run.
  rewrite Hb. cbn. rewrite Hv. cbn. rewrite Hr. cbn. rewrite Ha. cbn.
  rewrite <- !app_assoc. repeat split; reflexivity.
Qed.

Lemma update_delegates (id : EntityId) (data : TUpdateInput) options (w : W)
    u1 u2 u3 u4 entity :
  beforeUpdate this id data options (user w) = (inr tt, u1) ->
  validateUpdate this id data options u1 = (inr tt, u2) ->
  repo_update repository id data options u2 = (inr entity, u3) ->
  afterUpdate this entity options u3 = (inr tt, u4) ->
  (update nanoid config repository this id data options w).1 = inr entity
  /\ calls (update nanoid config repository this id data options w).2
     = calls w ++ [HookCall BeforeUpdate; HookCall ValidateUpdate;
                   RepoCall RepoUpdate; HookCall AfterUpdate]
  /\ user (update nanoid config repository this id data options w).2 = u4.
Proof.
  intros Hb Hv Hr Ha. unfold update. rewrite validation_on. run.
  rewrite Hb. cbn. rewrite Hv. cbn. rewrite Hr. cbn. rewrite Ha. cbn.
  rewrite <- !app_assoc. repeat split; reflexivity.
Qed.

(** C9 (amended): with validation enabled, for [create] (and likewise for
    [update], with [validateUpdate] and the repository's [update]):
    - whatever the hooks and the repository do, every call of the
      repository's [create] comes after a call of [validateCreate];
    - when the hooks return, the calls are [beforeCreate], [validateCreate],
      the repository's [create] on the caller's arguments at the state the
      validation hook left, and [afterCreate], and the caller gets the
      repository's entity;
    - when the validation hook raises, the calls are [beforeCreate],
      [validateCreate] and [onError], the repository is not called, and the
      caller gets the raised error when [onError] returns, and the error of
      [onError] when that raises. *)
Theorem validation_precedes_mutation (data : TCreateInput) (coptions : option CreateOptions)
    (id : EntityId) (udata : TUpdateInput) (uoptions : option UpdateOptions) (w : W) :
  let created := create nanoid config repository this data coptions w in
  let updated := update nanoid config repository this id udata uoptions w in
  ((exists tr,
      calls created.2 = calls w ++ tr
      /\ (forall pre post, tr = pre ++ RepoCall RepoCreate :: post ->
                           In (HookCall ValidateCreate) pre))
   /\ (forall u1 u2 u3 u4 entity,
         beforeCreate this data coptions (user w) = (inr tt, u1) ->
         validateCreate this data coptions u1 = (inr tt, u2) ->
         repo_create repository data coptions u2 = (inr entity, u3) ->
         afterCreate this entity coptions u3 = (inr tt, u4) ->
         created.1 = inr entity
         /\ calls created.2
            = calls w ++ [HookCall BeforeCreate; HookCall ValidateCreate;
                          RepoCall RepoCreate; HookCall AfterCreate]
         /\ user created.2 = u4)
   /\ (forall u1 u2 err,
         beforeCreate this data coptions (user w) = (inr tt, u1) ->
         validateCreate this data coptions u1 = (inl err, u2) ->
         let handled := onError this "create" err
                          (InCreate data coptions (nanoid (tick w))) u2 in
         (exists tr,
            calls created.2 = calls w ++ tr
            /\ tr = [HookCall BeforeCreate; HookCall ValidateCreate; HookCall OnError]
            /\ ~ In (RepoCall RepoCreate) tr)
         /\ created.1 = match handled.1 with
                        | inr _ => inl err
                        | inl err' => inl err'
                        end
         /\ user created.2 = handled.2))
  /\ ((exists tr,
      calls updated.2 = calls w ++ tr
      /\ (forall pre post, tr = pre ++ RepoCall RepoUpdate :: post ->
                           In (HookCall ValidateUpdate) pre))
   /\ (forall u1 u2 u3 u4 entity,
         beforeUpdate this id udata uoptions (user w) = (inr tt, u1) ->
         validateUpdate this id udata uoptions u1 = (inr tt, u2) ->
         repo_update repository id udata uoptions u2 = (inr entity, u3) ->
         afterUpdate this entity uoptions u3 = (inr tt, u4) ->
         updated.1 = inr entity
         /\ calls updated.2
            = calls w ++ [HookCall BeforeUpdate; HookCall ValidateUpdate;
                          RepoCall RepoUpdate; HookCall AfterUpdate]
         /\ user updated.2 = u4)
   /\ (forall u1 u2 err,
         beforeUpdate this id udata uoptions (user w) = (inr tt, u1) ->
         validateUpdate this id udata uoptions u1 = (inl err, u2) ->
         let handled := onError this "update" err
                          (InUpdate id udata uoptions (nanoid (tick w))) u2 in
         (exists tr,
            calls updated.2 = calls w ++ tr
            /\ tr = [HookCall BeforeUpdate; HookCall ValidateUpdate; HookCall OnError]
            /\ ~ In (RepoCall RepoUpdate) tr)
         /\ updated.1 = match handled.1 with
                        | inr _ => inl err
                        | inl err' => inl err'
                        end
         /\ user updated.2 = handled.2)).
Proof.
  intros created updated. split; (split; [|split]).
  - destruct (create_trace data coptions w) as (tr & Htr & Hg).
    exists tr. split; [exact Htr|].
    intros pre post Hsplit. exact (guarded_sound _ _ tr pre post Hg Hsplit).
  - intros u1 u2 u3 u4 entity Hb Hv Hr Ha.
    exact (create_delegates data coptions w u1 u2 u3 u4 entity Hb Hv Hr Ha).
  - intros u1 u2 err Hb Hv handled.
    destruct (create_aborted data coptions w u1 u2 err Hb Hv) as (Hcalls & Hres & Hu).
    fold created in Hcalls, Hres, Hu.
    split; [|split; assumption].
    eexists. split; [exact Hcalls|]. split; [reflexivity|].
    cbn. intros [H|[H|[H|[]]]]; discriminate H.
  - destruct (update_trace id udata uoptions w) as (tr & Htr & Hg).
    exists tr. split; [exact Htr|].
    intros pre post Hsplit. exact (guarded_sound _ _ tr pre post Hg Hsplit).
  - intros u1 u2 u3 u4 entity Hb Hv Hr Ha.
    exact (update_delegates id udata uoptions w u1 u2 u3 u4 entity Hb Hv Hr Ha).
  - intros u1 u2 err Hb Hv handled.
    destruct (update_aborted id udata uoptions w u1 u2 err Hb Hv) as (Hcalls & Hres & Hu).
    fold updated in Hcalls, Hres, Hu.
    split; [|split; assumption].
    eexists. split; [exact Hcalls|]. split; [reflexivity|].
    cbn. intros [H|[H|[H|[]]]]; discriminate H.
Qed.

End Facts.

(** A service over names: an empty name does not validate. *)
Definition nameRepository : @IRepository string string string unit :=
  {| repo_create := fun d _ u => (inr d, u);
     repo_findById := fun _ _ u => (inr None, u);
     repo_update := fun _ d _ u => (inr d, u);
     repo_delete := fun _ _ u => (inr tt, u);
     repo_list := fun _ u =>
       (inr {| pr_data := []; pr_pagination := Pagination.pageInfo 1 10 0 |}, u);
     repo_search := fun _ u => (inr {| sr_data := []; sr_total := 0 |}, u) |}.

Definition requireName (d : string) : Collab unit unit :=
  fun u => if String.eqb d "" then (inl (TError "name is required"), u)
           else (inr tt, u).

Definition nameHooks : @Hooks string string string unit :=
  {| beforeCreate := fun _ _ u => (inr tt, u);
     afterCreate := fun _ _ u => (inr tt, u);
     beforeUpdate := fun _ _ _ u => (inr tt, u);
     afterUpdate := fun _ _ u => (inr tt, u);
     beforeDelete := fun _ _ u => (inr tt, u);
     afterDelete := fun _ _ u => (inr tt, u);
     afterFind := fun _ _ u => (inr tt, u);
     validateCreate := fun d _ => requireName d;
     validateUpdate := fun _ d _ => requireName d;
     onError := fun _ _ _ u => (inr tt, u) |}.

Definition defaultConfig : ServiceConfig :=
  new_config noConfig.

Definition demoIds (n : nat) : string := "trace".

Definition start : World unit ServiceCall := {| user := tt; calls := []; tick := 0 |}.

Lemma validation_precedes_mutation_witness :
  (create demoIds defaultConfig nameRepository nameHooks "" None start).1
  = inl (TError "name is required")
  /\ (update demoIds defaultConfig nameRepository nameHooks "e1" "ada" None start).1
     = inr "ada".
Proof.
  destruct (validation_precedes_mutation demoIds defaultConfig nameRepository nameHooks
              eq_refl "" None "e1" "ada" None start)
    as [(_ & _ & Hc) (_ & Hu & _)].
  split.
  - destruct (Hc tt tt (TError "name is required") eq_refl eq_refl) as (_ & Hres & _).
    exact Hres.
  - destruct (Hu tt tt tt tt "ada" eq_refl eq_refl eq_refl eq_refl) as (Hres & _).
    exact Hres.
Defined.

(** The hooks of [nameHooks], with an error hook that raises. *)
Definition failingHooks : @Hooks string string string unit :=
  {| beforeCreate := beforeCreate nameHooks;
     afterCreate := afterCreate nameHooks;
     beforeUpdate := beforeUpdate nameHooks;
     afterUpdate := afterUpdate nameHooks;
     beforeDelete := beforeDelete nameHooks;
     afterDelete := afterDelete nameHooks;
     afterFind := afterFind nameHooks;
     validateCreate := validateCreate nameHooks;
     validateUpdate := validateUpdate nameHooks;
     onError := fun _ _ _ u => (inl (TError "hook failed"), u) |}.

(** C9 as stated fails in its last part: the validation hook raises 'name is
    required', the repository is not called, and the caller gets the error
    that the error hook raised. *)
Lemma error_hook_replaces_validation_error :
  truthy_bool (sc_validation defaultConfig) = true
  /\ validateCreate failingHooks "" None tt = (inl (TError "name is required"), tt)
  /\ calls (create demoIds defaultConfig nameRepository failingHooks "" None start).2
     = [HookCall BeforeCreate; HookCall ValidateCreate; HookCall OnError]
  /\ (create demoIds defaultConfig nameRepository failingHooks "" None start).1
     = inl (TError "hook failed")
  /\ (create demoIds defaultConfig nameRepository failingHooks "" None start).1
     <> inl (TError "name is required").
Proof. vm_compute. repeat split. discriminate. Qed.

(** The same service on a valid and on an invalid name. *)
Example create_runs :
  calls (create demoIds defaultConfig nameRepository nameHooks "ada" None start).2
  = [HookCall BeforeCreate; HookCall ValidateCreate; RepoCall RepoCreate;
     HookCall AfterCreate]
  /\ calls (create demoIds defaultConfig nameRepository nameHooks "" None start).2
     = [HookCall BeforeCreate; HookCall ValidateCreate; HookCall OnError].
Proof. vm_compute. split; reflexivity. Qed.

End ServiceFacts.

(** ** Entity: metadata, identity, snapshots *)

Module EntityLaws.
Import Js Types Env Entity.


Section Laws.
Variable nanoid : nat -> string.
Variable clock : nat -> Z.
Implicit Types (e : Entity) (w : World) (m : Mutation) (u : option UserId)
  (k : string) (v : value).

Local Ltac run :=
  unfold addMetadata, removeMetadata, softDelete, restore, markAsUpdated,
    getMetadata, createAuditTrail, modify, deref, alloc, bind, newDate, freshId, ret;
  cbn.



Lemma mutate_identity m e w :
  let e1 := (mutate clock m e w).1 in
  e_id e1 = e_id e /\ e_createdAt e1 = e_createdAt e /\ e_createdBy e1 = e_createdBy e.
Proof.
  destruct m; cbn [mutate]; run;
    repeat match goal with
           | |- context [truthy_str ?x] => destruct (truthy_str x); cbn
           | |- context [e_metadata e] => destruct (e_metadata e); cbn
           end; repeat split.
Qed.

(** X3: no sequence of mutations changes [id], [createdAt] or [createdBy]. *)
Theorem identity_is_immutable (ms : list Mutation) e w :
  let e1 := (mutateAll clock ms e w).1 in
  e_id e1 = e_id e /\ e_createdAt e1 = e_createdAt e /\ e_createdBy e1 = e_createdBy e.
Proof.
  revert e w. induction ms as [|m ms IH]; intros e w; [repeat split|].
  cbn [mutateAll]. unfold bind.
  pose proof (mutate_identity m e w) as (Hi & Hc & Hb).
  destruct (mutate clock m e w) as [e1 w1]. cbn [fst] in Hi, Hc, Hb.
  destruct (IH e1 w1) as (Hi' & Hc' & Hb').
  cbn zeta. rewrite Hi', Hc', Hb'. repeat split; assumption.
Qed.

(** X4: only [softDelete] and [restore] change the deletion state: the
    first always leaves the entity deleted, the second always leaves it
    active (also when it was active already), every other mutation keeps
    [deletedAt] as it was. *)
Theorem deletion_state_machine m e w :
  let e1 := (mutate clock m e w).1 in
  match m with
  | SoftDelete _ => isDeleted e1 = true /\ e_deletedAt e1 = DDate (clock (tick w))
  | Restore _ => isDeleted e1 = false /\ e_deletedAt e1 = DUndefined
  | _ => e_deletedAt e1 = e_deletedAt e /\ isDeleted e1 = isDeleted e
  end.
Proof.
  destruct m; cbn [mutate]; run; unfold isDeleted;
    repeat match goal with
           | |- context [truthy_str ?x] => destruct (truthy_str x); cbn
           | |- context [e_metadata e] => destruct (e_metadata e); cbn
           end; repeat split.
Qed.

(** X5: an entity that has gone through at least one mutation no longer
    [equals] the state it started from. *)
Theorem equals_detects_mutation (ms : list Mutation) e w :
  is_Some (e_metadata e) -> ms <> [] ->
  equals (mutateAll clock ms e w).1 e = false.
Proof.
  intros Hmd Hne.
  pose proof (EntityFacts.mutateAll_fields clock ms e w Hmd) as (Hv & _ & _).
  unfold equals. cbn zeta in Hv. rewrite Hv.
  assert (Hpos : 0 < Z.of_nat (length ms)) by (destruct ms; [congruence | cbn; lia]).
  destruct (Z.eqb_spec (e_version e + Z.of_nat (length ms)) (e_version e)) as [Heq|_];
    [lia|]. apply andb_false_r.
Qed.

(** X6: the metadata of an audit trail is a copy of its own: it holds what
    the entity's metadata held when the trail was created, and a later
    [addMetadata] on the entity does not reach it. *)
Theorem auditTrail_is_a_snapshot e w l (o : obj) (operation : string) u (tid : option TraceId) k v :
  e_metadata e = Some l -> heap w !! l = Some o ->
  let '(a, w1) := createAuditTrail nanoid clock operation u tid e w in
  let '(e1, w2) := addMetadata clock k v e w1 in
  exists la,
    at_metadata a = Some la
    /\ la <> l
    /\ heap w1 !! la = Some o
    /\ heap w2 !! la = Some o
    /\ heap w2 !! l = Some (<[k := v]> o).
Proof.
  intros Hl Ho.
  assert (Hlt : (l < length (heap w))%nat) by (eapply lookup_lt_Some; exact Ho).
  assert (Hkeep : (heap w ++ [o]) !! l = Some o) by (rewrite lookup_app_l by exact Hlt; exact Ho).
  run. destruct (truthy_str tid); cbn;
    repeat (first [rewrite Hl | rewrite Ho | rewrite Hkeep]; cbn);
    (exists (length (heap w)); repeat split;
     [ lia
     | rewrite lookup_app_r by lia; rewrite Nat.sub_diag; reflexivity
     | rewrite list_lookup_insert_ne by lia;
       rewrite lookup_app_r by lia; rewrite Nat.sub_diag; reflexivity
     | apply list_lookup_insert_eq; rewrite length_app; lia ]).
Qed.

(** X7: constructing an entity from [toPlainObject()] of an entity with a
    non-empty id and a non-zero version reproduces every field, and draws
    no id, reads no clock and allocates nothing. *)
Theorem toPlainObject_round_trip e w :
  e_id e <> "" -> e_version e <> 0 -> is_Some (e_metadata e) ->
  new_Entity nanoid clock (toPlainObject e) w = (e, w).
Proof.
  intros Hid Hv [l Hl]. unfold new_Entity, toPlainObject, bind, ret. cbn.
  destruct (String.eqb_spec (e_id e) "") as [Heq|_]; [contradiction|]. cbn.
  rewrite Hl. unfold or_num, truthy_num. cbn.
  destruct (Z.eqb_spec (e_version e) 0) as [Heq|_]; [contradiction|]. cbn.
  destruct e; cbn in *. subst. reflexivity.
Qed.

(** X8: [softDelete] and [restore] record the given actor in [updatedBy]
    even when none is given, erasing the previous one; [markAsUpdated]
    keeps the previous one when none is given. *)
Theorem updatedBy_semantics u e w :
  e_updatedBy (softDelete clock u e w).1 = u
  /\ e_updatedBy (restore clock u e w).1 = u
  /\ e_updatedBy (markAsUpdated clock u e w).1
     = (if truthy_str u then u else e_updatedBy e).
Proof.
  run. destruct (truthy_str u); repeat split.
Qed.

(** X9: when each clock reading is later than the one before and the
    entity (one that holds a metadata object, as every constructed entity
    does) was last updated before the next reading, every mutation makes
    the entity newer than its previous state. *)
Theorem mutation_makes_newer m e w :
  (forall n, clock n < clock (S n)) ->
  e_updatedAt e < clock (tick w) ->
  is_Some (e_metadata e) ->
  let e1 := (mutate clock m e w).1 in
  isNewerThan e1 e = true /\ e_updatedAt e1 < clock (tick (mutate clock m e w).2).
Proof.
  intros Hmono Hlast [l Hl].
  pose proof (Hmono (tick w)) as H1. pose proof (Hmono (S (tick w))) as H2.
  destruct m; cbn [mutate]; run; unfold isNewerThan; rewrite ?Hl; cbn;
    repeat match goal with
           | |- context [truthy_str ?x] => destruct (truthy_str x); cbn
           end;
    (split; [apply Z.ltb_lt|]; lia).
Qed.

End Laws.



Lemma equals_detects_mutation_witness :
  equals
    (mutateAll EntityFacts.demoClock [SoftDelete None]
       (new_Entity EntityFacts.demoIds EntityFacts.demoClock noData
          EntityFacts.emptyWorld).1
       EntityFacts.emptyWorld).1
    (new_Entity EntityFacts.demoIds EntityFacts.demoClock noData
       EntityFacts.emptyWorld).1 = false.
Proof.
  apply equals_detects_mutation; [vm_compute; eauto | discriminate].
Defined.

Lemma auditTrail_is_a_snapshot_witness :
  let '(e, w) := new_Entity EntityFacts.demoIds EntityFacts.demoClock noData
                   EntityFacts.emptyWorld in
  let '(a, w1) := createAuditTrail EntityFacts.demoIds EntityFacts.demoClock
                    "UPDATE" None None e w in
  let '(e1, w2) := addMetadata EntityFacts.demoClock "role" (VStr "admin") e w1 in
  exists la, at_metadata a = Some la /\ la <> 0%nat
             /\ heap w1 !! la = Some ∅ /\ heap w2 !! la = Some ∅
             /\ heap w2 !! 0%nat = Some (<["role" := VStr "admin"]> ∅).
Proof.
  pose proof (fun e w => auditTrail_is_a_snapshot EntityFacts.demoIds
                           EntityFacts.demoClock e w 0%nat ∅ "UPDATE" None None
                           "role" (VStr "admin")) as H.
  destruct (new_Entity EntityFacts.demoIds EntityFacts.demoClock noData
              EntityFacts.emptyWorld) as [e w] eqn:Hnew.
  apply H; vm_compute in Hnew; injection Hnew as <- <-; reflexivity.
Defined.

Lemma toPlainObject_round_trip_witness :
  let e := (new_Entity EntityFacts.demoIds EntityFacts.demoClock noData
              EntityFacts.emptyWorld).1 in
  new_Entity EntityFacts.demoIds EntityFacts.demoClock (toPlainObject e)
    EntityFacts.emptyWorld = (e, EntityFacts.emptyWorld).
Proof.
  apply toPlainObject_round_trip; vm_compute; [discriminate | discriminate | eauto].
Defined.

Lemma mutation_makes_newer_witness :
  isNewerThan
    (mutate EntityFacts.demoClock (MarkAsUpdated None)
       {| e_id := "e1"; e_createdAt := 0; e_updatedAt := 0; e_createdBy := None;
          e_updatedBy := None; e_version := 1; e_deletedAt := DUndefined;
          e_metadata := Some 0%nat |} EntityFacts.emptyWorld).1
    {| e_id := "e1"; e_createdAt := 0; e_updatedAt := 0; e_createdBy := None;
       e_updatedBy := None; e_version := 1; e_deletedAt := DUndefined;
       e_metadata := Some 0%nat |} = true.
Proof.
  apply mutation_makes_newer.
  - intros n. unfold EntityFacts.demoClock. lia.
  - vm_compute. reflexivity.
  - cbn. eauto.
Defined.

End EntityLaws.

(** ** Pagination: windows, defaults, over-fetching *)

Module PaginationEdges.
Import Js Types Pagination.

(** X10: on every page [1 <= P <= totalPages] of a listing with [T >= 0]
    items and limit [L >= 1], the offset lies inside the data
    ([0 <= offset < T]), exactly one of [hasNext] and [isLastPage] holds, and
    the page is the last one exactly when its window reaches the end of the
    data. *)
Theorem page_window (T L P : Z) :
  0 <= T -> 1 <= L ->
  exists n : Z,
    pm_totalPages (getPaginationMeta P L T) = Fin n /\
    (1 <= P <= n ->
       0 <= pm_offset (getPaginationMeta P L T) < T
       /\ pm_isLastPage (getPaginationMeta P L T)
          = negb (pm_hasNext (getPaginationMeta P L T))
       /\ (pm_isLastPage (getPaginationMeta P L T) = true
           <-> T <= pm_offset (getPaginationMeta P L T) + L)).
Proof.
  intros HT HL.
  destruct (PaginationFacts.calculateTotalPages_pos T L) as (n & Hn & Hup & Hlo); [lia|].
  exists n. cbn [getPaginationMeta pm_totalPages pm_offset pm_hasNext pm_isLastPage].
  rewrite Hn. cbn [lt_num eq_num]. unfold calculateOffset.
  split; [reflexivity|]. intros HP. split; [nia|]. split.
  - destruct (Z.eqb_spec P n), (Z.ltb_spec P n); cbn; try reflexivity; lia.
  - rewrite Z.eqb_eq. split; [intros ->; lia | intros Hend; nia].
Qed.

Lemma page_window_witness :
  exists n : Z,
    pm_totalPages (getPaginationMeta 3 10 25) = Fin n /\
    (1 <= 3 <= n ->
       0 <= pm_offset (getPaginationMeta 3 10 25) < 25
       /\ pm_isLastPage (getPaginationMeta 3 10 25)
          = negb (pm_hasNext (getPaginationMeta 3 10 25))
       /\ (pm_isLastPage (getPaginationMeta 3 10 25) = true
           <-> 25 <= pm_offset (getPaginationMeta 3 10 25) + 10)).
Proof. apply (page_window 25 10 3); lia. Defined.

(** X11: a listing without items has zero pages: whatever the limit
    [L >= 1], no page [P >= 1] has a next page and none is the last page,
    page 1 included. *)
Theorem empty_listing (L P : Z) :
  1 <= L -> 1 <= P ->
  pm_totalPages (getPaginationMeta P L 0) = Fin 0
  /\ pm_hasNext (getPaginationMeta P L 0) = false
  /\ pm_isLastPage (getPaginationMeta P L 0) = false.
Proof.
  intros HL HP.
  destruct (PaginationFacts.calculateTotalPages_pos 0 L) as (n & Hn & Hup & Hlo); [lia|].
  assert (n = 0) as -> by nia.
  cbn [getPaginationMeta pm_totalPages pm_hasNext pm_isLastPage].
  rewrite Hn. cbn [lt_num eq_num].
  repeat split; [apply Z.ltb_ge | apply Z.eqb_neq]; lia.
Qed.

Lemma empty_listing_witness :
  pm_totalPages (getPaginationMeta 1 10 0) = Fin 0
  /\ pm_hasNext (getPaginationMeta 1 10 0) = false
  /\ pm_isLastPage (getPaginationMeta 1 10 0) = false.
Proof. apply (empty_listing 10 1); lia. Defined.

(** X12: options that [validatePagination] accepts give [createPagination]
    a page of at least 1 and a limit between 1 and 100: an omitted or zero
    page becomes 1, an omitted or zero limit becomes 10. *)
Theorem validated_options_are_in_range {A} (data : list A) (total : Z)
    (options : PaginationOptions) :
  validatePagination options = inr tt ->
  let info := pr_pagination (createPagination data total options) in
  1 <= pi_page info
  /\ 1 <= pi_limit info <= 100
  /\ (truthy_num (po_page options) = false -> pi_page info = 1)
  /\ (truthy_num (po_limit options) = false -> pi_limit info = 10).
Proof.
  unfold validatePagination, present_and_lt, present_and_gt, createPagination,
    pageInfo, or_num, truthy_num.
  destruct options as [[p|] [l|] off cur]; cbn [po_page po_limit default from_option];
    unfold id; cbn [pr_pagination pi_page pi_limit];
    repeat match goal with
           | |- context [?a =? ?b] => destruct (Z.eqb_spec a b)
           | |- context [?a <? ?b] => destruct (Z.ltb_spec a b)
           end; cbn [negb andb from_option];
    intros Hok; try discriminate Hok; unfold id;
    repeat split; try lia; try (intros; discriminate).
Qed.

Lemma validated_options_are_in_range_witness :
  let info := pr_pagination
                (createPagination [1%nat; 2%nat] 2
                   {| po_page := Some 0; po_limit := None;
                      po_offset := None; po_cursor := None |}) in
  1 <= pi_page info
  /\ 1 <= pi_limit info <= 100
  /\ (truthy_num (Some 0) = false -> pi_page info = 1)
  /\ (truthy_num None = false -> pi_limit info = 10).
Proof.
  apply (validated_options_are_in_range [1%nat; 2%nat] 2
           {| po_page := Some 0; po_limit := None;
              po_offset := None; po_cursor := None |}).
  reflexivity.
Defined.

Section Cursor.
Context {A : Type}.

(** X13: [createCursorPagination] always returns a prefix of the
    candidates: all of them when there are at most [limit], all but the last
    otherwise, so more than [limit] items come back when more than
    [limit + 1] candidates were supplied; a next cursor is reported exactly
    when there are more than [limit] candidates and at least two. *)
Theorem cursor_page_shape (data : list A) (getCursor : A -> string) (limit : Z) :
  let r := createCursorPagination data getCursor limit in
  cp_data r `prefix_of` data
  /\ length (cp_data r)
     = (if limit <? Z.of_nat (length data) then (length data - 1)%nat else length data)
  /\ (is_Some (cp_nextCursor r)
      <-> limit < Z.of_nat (length data) /\ (2 <= length data)%nat)
  /\ (limit + 1 < Z.of_nat (length data) -> limit < Z.of_nat (length (cp_data r))).
Proof.
  unfold createCursorPagination. cbn [cp_data cp_nextCursor].
  destruct (Z.ltb_spec limit (Z.of_nat (length data))) as [Hmore|Hle].
  - cbn [andb]. rewrite length_take.
    replace (Init.Nat.min (length data - 1) (length data)) with (length data - 1)%nat
      by lia.
    split; [apply prefix_take|]. split; [reflexivity|]. split; [|lia].
    destruct (Z.ltb_spec 0 (Z.of_nat (length data - 1))) as [Hpos|Hzero].
    + destruct (last (take (length data - 1) data)) as [x|] eqn:Hlast.
      * cbn. split; [intros _; lia | eauto].
      * apply last_None in Hlast. apply (f_equal length) in Hlast.
        rewrite length_take in Hlast. cbn in Hlast. lia.
    + split; [intros [? H]; discriminate H | lia].
  - cbn [andb]. split; [reflexivity|]. split; [reflexivity|]. split; [|lia].
    split; [intros [? H]; discriminate H | lia].
Qed.

End Cursor.

Lemma cursor_page_shape_witness :
  10 < Z.of_nat (length (cp_data (createCursorPagination (seq 0 13)
                                    PaginationFacts.cursorOf 10))).
Proof.
  destruct (cursor_page_shape (seq 0 13) PaginationFacts.cursorOf 10)
    as (_ & _ & _ & H).
  apply H. vm_compute. reflexivity.
Defined.

End PaginationEdges.

(** ** Error handling: the whole taxonomy *)

Module ErrorsResponses.
Import Js Types Env Errors Http.

(** The arguments of every constructor of base.ts and domain.ts. *)
Inductive CtorArgs :=
| ValidationArgs (message : string) (issues : option (list ValidationIssue))
| DomainValidationArgs (message entityType : string) (issues : option (list ValidationIssue))
| NotFoundArgs (resource : string) (identifier : option string)
| ConflictArgs (message : string) (conflictType : option string)
    (conflictingValue : option value)
| UnauthorizedArgs (message : option string)
| ForbiddenArgs (message : option string)
| RateLimitArgs (message : option string) (retryAfter : option Z)
| InternalServerArgs (message : option string)
| DatabaseArgs (message operation : string) (query : option string)
| NetworkArgs (message : string) (endpoint method : option string)
| BusinessRuleArgs (message rule : string) (ruleParams : option (list (string * value)))
| ConcurrencyArgs (message : string) (expectedVersion actualVersion : Z)
| InvariantViolationArgs (message invariant aggregateId aggregateType : string)
| ResourceExhaustedArgs (message resource : string) (limit current : Z)
| TimeoutArgs (message operation : string) (timeoutMs : Z).

Definition build (nanoid : nat -> string) (clock : nat -> Z) (a : CtorArgs)
    (context : option ErrorContext) : St BaseError :=
  match a with
  | ValidationArgs m i => new_ValidationError nanoid clock m i context
  | DomainValidationArgs m t i => new_DomainValidationError nanoid clock m t i context
  | NotFoundArgs r i => new_NotFoundError nanoid clock r i context
  | ConflictArgs m t v => new_ConflictError nanoid clock m t v context
  | UnauthorizedArgs m => new_UnauthorizedError nanoid clock m context
  | ForbiddenArgs m => new_ForbiddenError nanoid clock m context
  | RateLimitArgs m r => new_RateLimitError nanoid clock m r context
  | InternalServerArgs m => new_InternalServerError nanoid clock m context
  | DatabaseArgs m o q => new_DatabaseError nanoid clock m o q context
  | NetworkArgs m e t => new_NetworkError nanoid clock m e t context
  | BusinessRuleArgs m r p => new_BusinessRuleError nanoid clock m r p context
  | ConcurrencyArgs m x y => new_ConcurrencyError nanoid clock m x y context
  | InvariantViolationArgs m i a t =>
      new_InvariantViolationError nanoid clock m i a t context
  | ResourceExhaustedArgs m r l c => new_ResourceExhaustedError nanoid clock m r l c context
  | TimeoutArgs m o t => new_TimeoutError nanoid clock m o t context
  end.

(** What the caller is told about an error. *)
Definition exposedText (e : BaseError) : string :=
  match be_class e with
  | ValidationError _ | DomainValidationError _ _ => "Validation failed"
  | _ => if 500 <=? be_statusCode e then "Internal server error" else be_message e
  end.

Section Facts.
Variable nanoid : nat -> string.
Variable clock : nat -> Z.
Implicit Types (t : thrown) (ctx : option ErrorContext) (w : World) (e : BaseError).

Local Ltac unfold_ctors :=
  unfold new_ValidationError, new_DomainValidationError, new_NotFoundError,
    new_ConflictError, new_UnauthorizedError, new_ForbiddenError, new_RateLimitError,
    new_InternalServerError, new_DatabaseError, new_NetworkError,
    new_BusinessRuleError, new_ConcurrencyError, new_InvariantViolationError,
    new_ResourceExhaustedError, new_TimeoutError, new_BaseError.

Local Ltac unfold_responses :=
  unfold errorToResponse, createValidationErrorResponse, createNotFoundResponse,
    createUnauthorizedResponse, createForbiddenResponse, createConflictResponse,
    createRateLimitResponse, createCodedResponse, createServerErrorResponse,
    createErrorResponse, orGenerateTraceId, generateTraceId, getCurrentTimestamp,
    freshId, newDate, Env.bind, Env.ret.

Local Ltac split_ifs :=
  repeat match goal with
         | |- context [if ?c then _ else _] => destruct c eqn:?; cbn
         end.

(** Converting an error to a response touches neither heap nor console,
    and the response is a failure with both texts present. *)
Lemma errorToResponse_envelope e w :
  let '(r, w') := errorToResponse nanoid clock e w in
  ar_success r = false
  /\ is_Some (ar_error r) /\ is_Some (ar_message r)
  /\ heap w' = heap w /\ console w' = console w.
Proof.
  unfold_responses. destruct (be_class e); cbn; split_ifs; repeat split; eauto.
Qed.

(** With a non-empty trace id on the error, the response carries it. *)
Lemma errorToResponse_traceId e w :
  be_traceId e <> "" ->
  ar_traceId (errorToResponse nanoid clock e w).1 = be_traceId e.
Proof.
  intros Hne. unfold_responses. unfold truthy_str.
  destruct (String.eqb_spec (be_traceId e) "") as [Heq|_]; [contradiction|].
  cbn. destruct (be_class e); cbn; split_ifs; reflexivity.
Qed.

Lemma transform_traceId t ctx w :
  (forall n, nanoid n <> "") ->
  (forall e, t = TBase e -> be_traceId e <> "") ->
  let p := (transformToBaseError nanoid clock t ctx w).1 in
  be_traceId p <> ""
  /\ (forall c, isBaseError t = false -> ctx = Some c -> ec_traceId c <> "" ->
                be_traceId p = ec_traceId c).
Proof.
  intros Hid Hbase.
  assert (Hraw : forall m,
    let p := (new_InternalServerError nanoid clock m ctx w).1 in
    be_traceId p <> ""
    /\ (forall c, ctx = Some c -> ec_traceId c <> "" -> be_traceId p = ec_traceId c)).
  { intros m. unfold_ctors.
    unfold orGenerateTraceId, generateTraceId, freshId, newDate, Env.bind, Env.ret,
      truthy_str.
    destruct ctx as [c|]; cbn.
    - destruct (String.eqb_spec (ec_traceId c) "") as [Heq|Hne]; cbn.
      + split; [apply Hid|]. intros c' [= <-] Hc. contradiction.
      + split; [exact Hne|]. intros c' [= <-] _. reflexivity.
    - split; [apply Hid|]. intros c' Hc. discriminate Hc. }
  destruct t as [e|m|v]; cbn [transformToBaseError].
  - unfold Env.ret. cbn. split; [apply Hbase; reflexivity|]. intros c Hc. discriminate Hc.
  - destruct (Hraw (Some m)) as [H1 H2]. split; [exact H1|]. intros c _. apply H2.
  - destruct v;
      match goal with |- context [new_InternalServerError nanoid clock ?m ctx w] =>
        destruct (Hraw m) as [H1 H2] end;
      (split; [exact H1|]; intros c _; apply H2).
Qed.

(** X14: whatever is thrown, [handleError] answers with a failure
    envelope that has both texts, writes exactly one record to the console
    at level warn or error (no error of the taxonomy has critical severity,
    so fatal is never used), and leaves the heap alone. *)
Theorem handleError_envelope t ctx w :
  let '(r, w') := handleError nanoid clock t ctx w in
  ar_success r = false
  /\ is_Some (ar_error r) /\ is_Some (ar_message r)
  /\ heap w' = heap w
  /\ exists d, console w' = console w ++ [d]
               /\ (ld_level d = "warn" \/ ld_level d = "error").
Proof.
  unfold handleError, Env.bind.
  destruct (transformToBaseError nanoid clock t ctx w) as [p w1] eqn:Ht.
  assert (Hw1 : heap w1 = heap w /\ console w1 = console w).
  { destruct t as [e|m|v]; cbn in Ht; [injection Ht as <- <-; split; reflexivity| |];
      revert Ht; try destruct v; unfold_ctors;
      unfold orGenerateTraceId, generateTraceId, freshId, newDate, Env.bind, Env.ret;
      destruct (truthy_str (ec_traceId <$> ctx)); cbn;
      intros [= <- <-]; split; reflexivity. }
  destruct Hw1 as [Hh1 Hc1].
  unfold logError, Env.bind, newDate, consoleError. cbn.
  match goal with |- context [errorToResponse nanoid clock p ?w2] =>
    pose proof (errorToResponse_envelope p w2) as Henv;
    destruct (errorToResponse nanoid clock p w2) as [r w'] end.
  cbn in Henv. destruct Henv as (Hs & He & Hm & Hh & Hc).
  repeat split; try assumption.
  - rewrite Hh. exact Hh1.
  - eexists. rewrite Hc, Hc1. split; [reflexivity|]. cbn.
    unfold getSeverity. destruct (be_class p); cbn; auto.
Qed.

(** X15: when the id generator never returns the empty string and a
    thrown taxonomy error has a non-empty trace id, the response and the
    console record of one [handleError] call carry the same trace id: that
    of the error, which for a failure from outside the taxonomy is the one
    of the context when the context has one. *)
Theorem response_and_log_are_correlated t ctx w :
  (forall n, nanoid n <> "") ->
  (forall e, t = TBase e -> be_traceId e <> "") ->
  let '(r, w') := handleError nanoid clock t ctx w in
  (exists d, last (console w') = Some d /\ ld_traceId d = ar_traceId r)
  /\ (forall e, t = TBase e -> ar_traceId r = be_traceId e)
  /\ (forall c, isBaseError t = false -> ctx = Some c -> ec_traceId c <> "" ->
                ar_traceId r = ec_traceId c).
Proof.
  intros Hid Hbase.
  pose proof (transform_traceId t ctx w Hid Hbase) as [Hne Hctx].
  assert (Hsame : forall e, t = TBase e ->
            (transformToBaseError nanoid clock t ctx w).1 = e)
    by (intros e ->; reflexivity).
  unfold handleError, Env.bind.
  destruct (transformToBaseError nanoid clock t ctx w) as [p w1].
  cbn [fst] in Hne, Hctx, Hsame.
  unfold logError, Env.bind, newDate, consoleError. cbn.
  match goal with |- context [errorToResponse nanoid clock p ?w2] =>
    pose proof (errorToResponse_traceId p w2 Hne) as Htid;
    pose proof (errorToResponse_envelope p w2) as Henv;
    destruct (errorToResponse nanoid clock p w2) as [r w'] end.
  cbn in Htid, Henv. destruct Henv as (_ & _ & _ & _ & Hc).
  split; [|split].
  - eexists. rewrite Hc. cbn. rewrite last_snoc. split; [reflexivity|].
    cbn. symmetry. exact Htid.
  - intros e He. rewrite Htid, (Hsame e He). reflexivity.
  - intros c Hraw Hc' Hcne. rewrite Htid. apply (Hctx c Hraw Hc' Hcne).
Qed.

Lemma build_fields (a : CtorArgs) ctx w :
  let e := (build nanoid clock a ctx w).1 in
  400 <= be_statusCode e < 600
  /\ (500 <= be_statusCode e -> isRetryable e = true /\ getSeverity e = high)
  /\ getSeverity e <> critical
  /\ match be_class e with
     | NotFoundError r i =>
         be_message e = notFoundMessage r i /\ be_statusCode e < 500
     | ConflictError _ _ | UnauthorizedError | ForbiddenError | RateLimitError _ =>
         be_statusCode e < 500
     | _ => True
     end.
Proof.
  destruct a; cbn [build]; unfold_ctors;
    unfold orGenerateTraceId, generateTraceId, freshId, newDate, Env.bind, Env.ret;
    destruct (truthy_str (ec_traceId <$> ctx)); cbn;
    repeat split; try lia; try discriminate; auto; try (intros; lia).
Qed.

(** The text that [errorToResponse] puts in both fields, branch by branch. *)
Definition branchText (e : BaseError) : string :=
  match be_class e with
  | ValidationError _ | DomainValidationError _ _ => "Validation failed"
  | NotFoundError r i => notFoundMessage r i
  | ConflictError _ _ | UnauthorizedError | ForbiddenError | RateLimitError _ =>
      be_message e
  | _ => if shouldExposeMessage e then be_message e else "Internal server error"
  end.

Lemma errorToResponse_text e w :
  ar_error (errorToResponse nanoid clock e w).1 = Some (branchText e)
  /\ ar_message (errorToResponse nanoid clock e w).1 = Some (branchText e).
Proof.
  unfold branchText. unfold_responses.
  destruct (be_class e); cbn; split_ifs; split; reflexivity.
Qed.

Lemma branchText_built (a : CtorArgs) ctx w :
  let e := (build nanoid clock a ctx w).1 in
  branchText e = exposedText e.
Proof.
  intros e. pose proof (build_fields a ctx w) as (Hst & _ & _ & Hcls).
  fold e in Hst, Hcls. unfold branchText, exposedText, shouldExposeMessage.
  destruct (be_class e); try reflexivity;
    destruct (Z.leb_spec 500 (be_statusCode e)),
      (Z.leb_spec 400 (be_statusCode e)),
      (Z.ltb_spec (be_statusCode e) 500); cbn;
    try reflexivity; try lia;
    try (destruct Hcls as [Hm Hlt]; first [symmetry; exact Hm | lia]).
Qed.

(** X16: for an error built by any constructor of the taxonomy, the [error]
    and [message] fields of the response both hold: 'Validation failed' for
    a validation error (whatever its own message), 'Internal server error'
    for a status of 500 or more, and the error's own message otherwise. *)
Theorem response_text_by_kind (a : CtorArgs) (ctx0 ctx : option ErrorContext)
    (w0 w : World) :
  let e := (build nanoid clock a ctx0 w0).1 in
  let r := (handleError nanoid clock (TBase e) ctx w).1 in
  ar_error r = Some (exposedText e) /\ ar_message r = Some (exposedText e).
Proof.
  intros e r. subst r.
  pose proof (branchText_built a ctx0 w0) as Hb. cbn zeta in Hb. fold e in Hb.
  rewrite <- Hb.
  unfold handleError, transformToBaseError, Env.bind, Env.ret.
  destruct (logError clock e ctx w) as [[] w1].
  apply errorToResponse_text.
Qed.

(** X17: [handleErrorAsHttpResponse] answers every failure with HTTP status
    400, whatever the status code of the error, with the JSON content type
    and with the envelope of [handleError] as its body. *)
Theorem http_status_is_always_400 t ctx w :
  let resp := (handleErrorAsHttpResponse nanoid clock t ctx w).1 in
  status resp = 400
  /\ headers resp !! "Content-Type" = Some "application/json"
  /\ body resp = (handleError nanoid clock t ctx w).1.
Proof.
  unfold handleErrorAsHttpResponse, Env.bind, Env.ret.
  pose proof (handleError_envelope t ctx w) as Henv.
  destruct (handleError nanoid clock t ctx w) as [r w'].
  destruct Henv as (Hs & _). cbn.
  unfold toHttpResponse. rewrite Hs. cbn. repeat split.
Qed.

(** X18: every error built by a constructor of the taxonomy has a status
    between 400 and 599 and a severity below critical; those with a status
    of 500 or more are all retryable and of high severity. *)
Theorem taxonomy_invariants (a : CtorArgs) ctx w :
  let e := (build nanoid clock a ctx w).1 in
  400 <= be_statusCode e < 600
  /\ getSeverity e <> critical
  /\ (500 <= be_statusCode e -> isRetryable e = true /\ getSeverity e = high).
Proof.
  intros e. pose proof (build_fields a ctx w) as (H1 & H2 & H4 & _).
  repeat split; try apply H1; try exact H4; apply H2; assumption.
Qed.

End Facts.

Definition neverEmpty (n : nat) : string := "t" +:+ String (Ascii.ascii_of_nat (97 + n)) "".

Lemma neverEmpty_ok (n : nat) : neverEmpty n <> "".
Proof. unfold neverEmpty. cbn. discriminate. Qed.

Lemma response_and_log_are_correlated_witness :
  ar_traceId
    (handleError neverEmpty ErrorsFacts.demoClock (TError "boom")
       (Some {| ec_traceId := "req-7"; ec_operation := None; ec_entityType := None;
                ec_entityId := None; ec_userId := None; ec_tenantId := None;
                ec_metadata := None |})
       ErrorsFacts.emptyWorld).1 = "req-7".
Proof.
  pose proof (response_and_log_are_correlated neverEmpty ErrorsFacts.demoClock
                (TError "boom")
                (Some {| ec_traceId := "req-7"; ec_operation := None;
                         ec_entityType := None; ec_entityId := None;
                         ec_userId := None; ec_tenantId := None;
                ec_metadata := None |})
                ErrorsFacts.emptyWorld neverEmpty_ok) as H.
  destruct (handleError neverEmpty ErrorsFacts.demoClock (TError "boom") _
              ErrorsFacts.emptyWorld) as [r w'].
  destruct H as (_ & _ & H); [intros e He; discriminate He|].
  apply (H _ eq_refl eq_refl). discriminate.
Defined.

Lemma taxonomy_invariants_witness :
  isRetryable (build neverEmpty ErrorsFacts.demoClock
                 (DatabaseArgs "connection lost" "select" None) None
                 ErrorsFacts.emptyWorld).1 = true.
Proof.
  destruct (taxonomy_invariants neverEmpty ErrorsFacts.demoClock
              (DatabaseArgs "connection lost" "select" None) None
              ErrorsFacts.emptyWorld) as (_ & _ & H).
  apply H. vm_compute. discriminate.
Defined.

End ErrorsResponses.

(** ** Repository: one storage call, errors, existence, listing *)

Module RepositoryShape.
Import Js Types Errors Eff Pagination Repository.

Section Facts.
Context {TEntity TCreateInput TUpdateInput U : Type}.
Variable nanoid : nat -> string.
Variable config : RepositoryConfig.
Variable this : @Adapter TEntity TCreateInput TUpdateInput U.

Local Abbreviation W := (World U (@StorageCall TCreateInput TUpdateInput)).

Local Ltac run :=
  unfold rethrow, call, record, lift, tryCatch, both, generateTraceId, bind, ret, raise;
  cbn [user calls tick].

Local Ltac step :=
  match goal with
  | |- context [match ?f ?u with _ => _ end] =>
      lazymatch type of u with
      | U => let r := fresh "r" in let u1 := fresh "u" in
             destruct (f u) as [[r|r] u1] eqn:?; cbn [user calls tick fst snd]
      end
  | |- context [let '(_, _) := ?f ?u in _] =>
      lazymatch type of u with
      | U => let r := fresh "r" in let u1 := fresh "u" in
             destruct (f u) as [[r|r] u1] eqn:?; cbn [user calls tick fst snd]
      end
  end.

(** X19: [create], [update] and [delete] call their storage primitive at
    most once, with the caller's arguments, and not at all exactly when the
    before-hook raises. *)
Theorem mutations_reach_storage_at_most_once (data : TCreateInput)
    (coptions : option CreateOptions) (id : EntityId) (udata : TUpdateInput)
    (uoptions : option UpdateOptions) (doptions : option DeleteOptions) (w : W) :
  (exists tr,
     calls (create nanoid this data coptions w).2 = calls w ++ tr
     /\ (tr = [] \/ tr = [ExecuteCreate data coptions])
     /\ (tr = [] <-> exists err, (beforeCreate this data coptions (user w)).1 = inl err))
  /\ (exists tr,
     calls (update nanoid this id udata uoptions w).2 = calls w ++ tr
     /\ (tr = [] \/ tr = [ExecuteUpdate id udata uoptions])
     /\ (tr = [] <-> exists err,
           (beforeUpdate this id udata uoptions (user w)).1 = inl err))
  /\ (exists tr,
     calls (delete nanoid this id doptions w).2 = calls w ++ tr
     /\ (tr = [] \/ tr = [ExecuteDelete id doptions])
     /\ (tr = [] <-> exists err, (beforeDelete this id doptions (user w)).1 = inl err)).
Proof.
  split; [|split].
  - unfold create. run.
    destruct (beforeCreate this data coptions (user w)) as [[e0|[]] u0];
      cbn [user calls tick fst snd].
    + exists []. step; (split; [rewrite app_nil_r; reflexivity|]);
        (split; [left; reflexivity|]); (split; [eauto | reflexivity]).
    + exists [ExecuteCreate data coptions].
      repeat step; (split; [reflexivity|]); (split; [right; reflexivity|]);
        (split; [discriminate | intros [err Herr]; discriminate Herr]).
  - unfold update. run.
    destruct (beforeUpdate this id udata uoptions (user w)) as [[e0|[]] u0];
      cbn [user calls tick fst snd].
    + exists []. step; (split; [rewrite app_nil_r; reflexivity|]);
        (split; [left; reflexivity|]); (split; [eauto | reflexivity]).
    + exists [ExecuteUpdate id udata uoptions].
      repeat step; (split; [reflexivity|]); (split; [right; reflexivity|]);
        (split; [discriminate | intros [err Herr]; discriminate Herr]).
  - unfold delete. run.
    destruct (beforeDelete this id doptions (user w)) as [[e0|[]] u0];
      cbn [user calls tick fst snd].
    + exists []. step; (split; [rewrite app_nil_r; reflexivity|]);
        (split; [left; reflexivity|]); (split; [eauto | reflexivity]).
    + exists [ExecuteDelete id doptions].
      repeat step; (split; [reflexivity|]); (split; [right; reflexivity|]);
        (split; [discriminate | intros [err Herr]; discriminate Herr]).
Qed.

(** X20: when the storage primitive of [create] raises, the after-hook is
    skipped, the error hook runs in the state the storage left, and the
    caller gets the storage error unchanged, unless the error hook raises
    itself: then the caller gets the error of the hook. *)
Theorem create_surfaces_storage_error (data : TCreateInput)
    (options : option CreateOptions) (w : W) (u1 u2 : U) (err : thrown) :
  beforeCreate this data options (user w) = (inr tt, u1) ->
  executeCreate this data options u1 = (inl err, u2) ->
  let hook := onError this "create" err (InCreate data options (nanoid (tick w))) u2 in
  (create nanoid this data options w).1
    = match hook.1 with
      | inr _ => inl err
      | inl err' => inl err'
      end
  /\ user (create nanoid this data options w).2 = hook.2
  /\ calls (create nanoid this data options w).2
     = calls w ++ [ExecuteCreate data options].
Proof.
  intros Hb He hook. subst hook. unfold create. run. rewrite Hb. cbn.
  rewrite He. cbn.
  destruct (onError this "create" err (InCreate data options (nanoid (tick w))) u2)
    as [[e'|[]] u3]; cbn; repeat split.
Qed.

(** X21: with soft delete in force, [findById] never resolves with a
    soft-deleted entity, whatever the storage returns. *)
Theorem findById_never_returns_deleted (id : EntityId) (options : option FindOptions)
    (w : W) (e : TEntity) :
  RepositoryFacts.hidesDeleted config options = true ->
  (findById nanoid config this id options w).1 = inr (Some e) ->
  isDeleted this e = false.
Proof.
  unfold RepositoryFacts.hidesDeleted. intros Hh. unfold findById. run.
  destruct (executeFindById this id options (user w)) as [[e0|[e0|]] u0];
    cbn [user calls tick fst snd].
  - destruct (onError this _ _ _ u0) as [[?|[]] ?]; cbn; discriminate.
  - rewrite Hh. destruct (isDeleted this e0) eqn:Hd; cbn; [discriminate|].
    intros [= <-]. exact Hd.
  - cbn. discriminate.
Qed.

(** X22: [exists] takes no options, so with soft delete enabled it answers
    false for an id whose stored entity is soft-deleted, true for one whose
    stored entity is active, and false when storage has none. *)
Theorem exists_ignores_deleted (id : EntityId) (w : W) (found : option TEntity) (u1 : U) :
  executeFindById this id None (user w) = (inr found, u1) ->
  (exists_ nanoid config this id w).1
  = inr (match found with
         | Some e => negb (truthy_bool (rc_softDelete config) && isDeleted this e)
         | None => false
         end).
Proof.
  intros Hst. unfold exists_, findById. run. rewrite Hst. cbn.
  destruct found as [e|]; [|reflexivity].
  destruct (truthy_bool (rc_softDelete config)); cbn; [|reflexivity].
  destruct (isDeleted this e); reflexivity.
Qed.

(** X23: when both primitives resolve, [list] resolves with the entities
    found and the total counted, page 1 and limit 10 standing in for an
    omitted or zero page and limit; for a total [>= 0] and a limit [>= 1] it
    announces a next page exactly when [page * limit < total].  No hook
    runs: the state is the one the two primitives leave. *)
Theorem list_assembles_page (options : ListOptions) (w : W)
    (found : list TEntity) (total : Z) (u1 u2 : U) :
  let enhanced := applySoftDeleteFilter config
                    (Some (default emptyCriteria (lo_filter options)))
                    (Some (lo_find options)) in
  let page := or_num (po_page (lo_pagination options)) 1 in
  let limit := or_num (po_limit (lo_pagination options)) 10 in
  executeFindMany this enhanced (Some (lo_find options)) (user w) = (inr found, u1) ->
  executeCount this (Some enhanced) u1 = (inr total, u2) ->
  exists r,
    (list_ config this options w).1 = inr r
    /\ user (list_ config this options w).2 = u2
    /\ pr_data r = found
    /\ pi_total (pr_pagination r) = total
    /\ pi_page (pr_pagination r) = page
    /\ pi_limit (pr_pagination r) = limit
    /\ (pi_hasPrev (pr_pagination r) = true <-> 1 < page)
    /\ (0 <= total -> 1 <= limit ->
        (pi_hasNext (pr_pagination r) = true <-> page * limit < total)).
Proof.
  intros enhanced page limit Hf Hc. unfold list_. fold enhanced page limit. run.
  rewrite Hf. cbn. rewrite Hc. cbn. eexists. split; [reflexivity|].
  cbn. repeat split; try (apply Z.ltb_lt; assumption); try (apply Z.ltb_lt).
  - intros Hn.
    destruct (PaginationFacts.calculateTotalPages_pos total limit) as (n & Hn' & Hup & Hlo);
      [lia|].
    unfold calculateTotalPages in Hn'. rewrite Hn' in Hn. cbn in Hn.
    apply Z.ltb_lt in Hn.
    apply (PaginationFacts.hasNext_iff_remaining total limit page n); lia.
  - intros Hrem.
    destruct (PaginationFacts.calculateTotalPages_pos total limit) as (n & Hn' & Hup & Hlo);
      [lia|].
    unfold calculateTotalPages in Hn'. rewrite Hn'. cbn. apply Z.ltb_lt.
    apply (PaginationFacts.hasNext_iff_remaining total limit page n); lia.
Qed.

End Facts.

(** A storage that rejects every write, and one that holds an active
    entity. *)
Definition active : RepositoryFacts.Row := ("e2", DUndefined).

Definition failingAdapter : @Adapter RepositoryFacts.Row unit unit unit :=
  {| deletedAtOf := snd;
     executeCreate := fun _ _ u => (inl (TError "disk full"), u);
     executeFindById := fun _ _ u => (inr (Some active), u);
     executeFindMany := fun _ _ u => (inr [active], u);
     executeUpdate := fun _ _ _ u => (inl (TError "disk full"), u);
     executeDelete := fun _ _ u => (inl (TError "disk full"), u);
     executeCount := fun _ u => (inr 1, u);
     executeSearch := fun _ u => (inr {| sr_data := [active]; sr_total := 1 |}, u);
     beforeCreate := fun _ _ u => (inr tt, u);
     afterCreate := fun _ _ u => (inr tt, u);
     beforeUpdate := fun _ _ _ u => (inr tt, u);
     afterUpdate := fun _ _ u => (inr tt, u);
     beforeDelete := fun _ _ u => (inr tt, u);
     afterDelete := fun _ _ u => (inr tt, u);
     onError := fun _ _ _ u => (inr tt, u) |}.

Lemma create_surfaces_storage_error_witness :
  (create RepositoryFacts.demoIds failingAdapter tt None RepositoryFacts.start).1
  = inl (TError "disk full").
Proof.
  destruct (create_surfaces_storage_error RepositoryFacts.demoIds failingAdapter tt
              None RepositoryFacts.start tt tt (TError "disk full") eq_refl eq_refl)
    as (H & _).
  rewrite H. reflexivity.
Defined.

Lemma findById_never_returns_deleted_witness :
  isDeleted failingAdapter active = false.
Proof.
  apply (findById_never_returns_deleted RepositoryFacts.demoIds
           RepositoryFacts.demoConfig failingAdapter "e2" None RepositoryFacts.start
           active); reflexivity.
Defined.

Lemma exists_ignores_deleted_witness :
  (exists_ RepositoryFacts.demoIds RepositoryFacts.demoConfig
     RepositoryFacts.demoAdapter "e1" RepositoryFacts.start).1 = inr false.
Proof.
  rewrite (exists_ignores_deleted RepositoryFacts.demoIds RepositoryFacts.demoConfig
             RepositoryFacts.demoAdapter "e1" RepositoryFacts.start
             (Some RepositoryFacts.stored) tt eq_refl).
  reflexivity.
Defined.

Lemma list_assembles_page_witness :
  exists r,
    (list_ RepositoryFacts.demoConfig RepositoryFacts.demoAdapter
       RepositoryFacts.noListOptions RepositoryFacts.start).1 = inr r
    /\ pr_data r = [RepositoryFacts.stored]
    /\ pi_total (pr_pagination r) = 1.
Proof.
  destruct (list_assembles_page RepositoryFacts.demoConfig RepositoryFacts.demoAdapter
              RepositoryFacts.noListOptions RepositoryFacts.start
              [RepositoryFacts.stored] 1 tt tt eq_refl eq_refl)
    as (r & Hr & _ & Hd & Ht & _).
  exists r. repeat split; assumption.
Defined.

End RepositoryShape.

(** ** Service: the error hook, read hooks, validation switched off *)

Module ServiceShape.
Import Js Types Errors Eff Service ServiceFacts.

Definition failed {A} (r : thrown + A) : bool :=
  match r with inl _ => true | inr _ => false end.

(** How often the error hook was called in a trace. *)
Definition errorHookCalls (tr : list ServiceCall) : nat :=
  count_occ ServiceCall_eq_dec tr (HookCall OnError).

Section Facts.
Context {TEntity TCreateInput TUpdateInput U : Type}.
Variable nanoid : nat -> string.
Variable config : ServiceConfig.
Variable repository : @IRepository TEntity TCreateInput TUpdateInput U.
Variable this : @Hooks TEntity TCreateInput TUpdateInput U.

Local Abbreviation W := (World U ServiceCall).

Local Ltac run :=
  unfold rethrow, call, record, lift, tryCatch, generateTraceId, bind, ret, raise;
  cbn [user calls tick].

Local Ltac step :=
  match goal with
  | |- context [match ?f ?u with _ => _ end] =>
      lazymatch type of u with
      | U => let r := fresh "r" in let u1 := fresh "u" in
             destruct (f u) as [[r|r] u1] eqn:?; cbn [user calls tick fst snd]
      end
  | |- context [let '(_, _) := ?f ?u in _] =>
      lazymatch type of u with
      | U => let r := fresh "r" in let u1 := fresh "u" in
             destruct (f u) as [[r|r] u1] eqn:?; cbn [user calls tick fst snd]
      end
  end.

Local Ltac finish :=
  eexists; split; [rewrite <- ?app_assoc; cbn [app]; reflexivity | reflexivity].

(** X24: [create], [update], [delete] and [findById] call the error hook
    exactly once when they reject and never when they resolve, whichever
    hook or repository method failed. *)
Theorem error_hook_runs_once_on_failure (data : TCreateInput)
    (coptions : option CreateOptions) (id : EntityId) (udata : TUpdateInput)
    (uoptions : option UpdateOptions) (doptions : option DeleteOptions)
    (foptions : option FindOptions) (w : W) :
  (exists tr,
     calls (create nanoid config repository this data coptions w).2 = calls w ++ tr
     /\ errorHookCalls tr
        = if failed (create nanoid config repository this data coptions w).1
          then 1%nat else 0%nat)
  /\ (exists tr,
     calls (update nanoid config repository this id udata uoptions w).2 = calls w ++ tr
     /\ errorHookCalls tr
        = if failed (update nanoid config repository this id udata uoptions w).1
          then 1%nat else 0%nat)
  /\ (exists tr,
     calls (delete nanoid repository this id doptions w).2 = calls w ++ tr
     /\ errorHookCalls tr
        = if failed (delete nanoid repository this id doptions w).1
          then 1%nat else 0%nat)
  /\ (exists tr,
     calls (findById nanoid repository this id foptions w).2 = calls w ++ tr
     /\ errorHookCalls tr
        = if failed (findById nanoid repository this id foptions w).1
          then 1%nat else 0%nat).
Proof.
  split; [|split; [|split]].
  - unfold create. destruct (truthy_bool (sc_validation config)); run;
      repeat step; finish.
  - unfold update. destruct (truthy_bool (sc_validation config)); run;
      repeat step; finish.
  - unfold delete. run. repeat step; finish.
  - unfold findById. run. step.
    + repeat step; finish.
    + destruct r as [e|]; run; repeat step; finish.
Qed.

(** The read hook over a list of entities, when it always resolves. *)
Lemma forEach_afterFind (options : option FindOptions) (xs : list TEntity) (w : W) :
  (forall e u, exists u', afterFind this e options u = (inr tt, u')) ->
  exists u',
    forEach (fun e => call (HookCall AfterFind) (afterFind this e options)) xs w
    = (inr tt, {| user := u';
                  calls := calls w ++ replicate (length xs) (HookCall AfterFind);
                  tick := tick w |}).
Proof.
  intros Hok. revert w. induction xs as [|x xs IH]; intros w.
  - exists (user w). cbn. unfold ret. rewrite app_nil_r. destruct w; reflexivity.
  - destruct (Hok x (user w)) as [u1 Hu1].
    assert (Hcall : call (HookCall AfterFind) (afterFind this x options) w
                    = (inr tt, {| user := u1; calls := calls w ++ [HookCall AfterFind];
                                  tick := tick w |})).
    { unfold call, record, lift, bind. cbn [user calls tick]. rewrite Hu1. reflexivity. }
    destruct (IH {| user := u1; calls := calls w ++ [HookCall AfterFind];
                    tick := tick w |}) as [u' Hu'].
    exists u'. cbn [forEach]. unfold bind at 1. rewrite Hcall, Hu'.
    cbn [user calls tick length replicate].
    rewrite <- app_assoc. reflexivity.
Qed.

(** X25: when the repository's [list] resolves and the read hook resolves
    on every entity, the service's [list] calls the read hook once per
    entity returned, after the repository, calls no other hook, and hands
    back the repository's result unchanged. *)
Theorem list_runs_afterFind_per_entity (options : ListOptions) (w : W)
    (result : PaginatedResult TEntity) (u1 : U) :
  (forall e o u, exists u', afterFind this e o u = (inr tt, u')) ->
  repo_list repository options (user w) = (inr result, u1) ->
  (list_ nanoid repository this options w).1 = inr result
  /\ calls (list_ nanoid repository this options w).2
     = calls w ++ RepoCall RepoList
                  :: replicate (length (pr_data result)) (HookCall AfterFind).
Proof.
  intros Hok Hrepo.
  destruct (forEach_afterFind (Some (lo_find options)) (pr_data result)
              {| user := u1; calls := calls w ++ [RepoCall RepoList];
                 tick := S (tick w) |} (fun e u => Hok e _ u)) as [u' Hu'].
  assert (Hcall : call (RepoCall RepoList) (repo_list repository options)
                    {| user := user w; calls := calls w; tick := S (tick w) |}
                  = (inr result, {| user := u1; calls := calls w ++ [RepoCall RepoList];
                                    tick := S (tick w) |})).
  { unfold call, record, lift, bind. cbn [user calls tick]. rewrite Hrepo. reflexivity. }
  assert (Hrun : list_ nanoid repository this options w
                 = (inr result,
                    {| user := u';
                       calls := (calls w ++ [RepoCall RepoList])
                                ++ replicate (length (pr_data result)) (HookCall AfterFind);
                       tick := S (tick w) |})).
  { unfold list_, generateTraceId, tryCatch. unfold bind at 1 2.
    rewrite Hcall. unfold bind at 1. rewrite Hu'. reflexivity. }
  rewrite Hrun. cbn [fst snd calls]. rewrite <- app_assoc. split; reflexivity.
Qed.

(** X26: with validation switched off, [create] and [update] never call
    the validation hooks, and they call the repository exactly when the
    before-hook resolves. *)
Theorem validation_can_be_switched_off (data : TCreateInput)
    (coptions : option CreateOptions) (id : EntityId) (udata : TUpdateInput)
    (uoptions : option UpdateOptions) (w : W) :
  truthy_bool (sc_validation config) = false ->
  (exists tr,
     calls (create nanoid config repository this data coptions w).2 = calls w ++ tr
     /\ ~ In (HookCall ValidateCreate) tr
     /\ (In (RepoCall RepoCreate) tr
         <-> exists u1, beforeCreate this data coptions (user w) = (inr tt, u1)))
  /\ (exists tr,
     calls (update nanoid config repository this id udata uoptions w).2 = calls w ++ tr
     /\ ~ In (HookCall ValidateUpdate) tr
     /\ (In (RepoCall RepoUpdate) tr
         <-> exists u1, beforeUpdate this id udata uoptions (user w) = (inr tt, u1))).
Proof.
  intros Hoff. split.
  - unfold create. rewrite Hoff. run.
    destruct (beforeCreate this data coptions (user w)) as [[e0|[]] u0] eqn:Hb;
      cbn [user calls tick fst snd];
      repeat step;
      (eexists; split; [rewrite <- ?app_assoc; cbn [app]; reflexivity|]);
      (split; [cbn; intuition discriminate|]);
      (split; [cbn; try (intuition discriminate); eauto
              | intros [u1' Hu1]; try discriminate Hu1; cbn; auto]).
  - unfold update. rewrite Hoff. run.
    destruct (beforeUpdate this id udata uoptions (user w)) as [[e0|[]] u0] eqn:Hb;
      cbn [user calls tick fst snd];
      repeat step;
      (eexists; split; [rewrite <- ?app_assoc; cbn [app]; reflexivity|]);
      (split; [cbn; intuition discriminate|]);
      (split; [cbn; try (intuition discriminate); eauto
              | intros [u1' Hu1]; try discriminate Hu1; cbn; auto]).
Qed.

End Facts.

Definition noValidation : ServiceConfig :=
  new_config {| arg_validation := Present (Some false); arg_events := Absent;
                arg_auditTrail := Absent; arg_caching := Absent;
                arg_retries := Absent |}.

Definition twoNames : @IRepository string string string unit :=
  {| repo_create := fun d _ u => (inr d, u);
     repo_findById := fun _ _ u => (inr None, u);
     repo_update := fun _ d _ u => (inr d, u);
     repo_delete := fun _ _ u => (inr tt, u);
     repo_list := fun _ u =>
       (inr {| pr_data := ["ada"; "bob"];
               pr_pagination := Pagination.pageInfo 1 10 2 |}, u);
     repo_search := fun _ u => (inr {| sr_data := []; sr_total := 0 |}, u) |}.

Lemma list_runs_afterFind_per_entity_witness :
  calls (list_ demoIds twoNames nameHooks RepositoryFacts.noListOptions start).2
  = [RepoCall RepoList; HookCall AfterFind; HookCall AfterFind].
Proof.
  destruct (list_runs_afterFind_per_entity demoIds twoNames nameHooks
              RepositoryFacts.noListOptions start
              {| pr_data := ["ada"; "bob"];
                 pr_pagination := Pagination.pageInfo 1 10 2 |} tt) as [_ H].
  - intros e o u. exists u. reflexivity.
  - reflexivity.
  - rewrite H. reflexivity.
Defined.

Lemma validation_can_be_switched_off_witness :
  exists tr,
    calls (create demoIds noValidation nameRepository nameHooks "" None start).2
    = calls start ++ tr
    /\ ~ In (HookCall ValidateCreate) tr.
Proof.
  destruct (validation_can_be_switched_off demoIds noValidation nameRepository
              nameHooks "" None "e1" "" None start eq_refl)
    as [(tr & Htr & Hno & _) _].
  exists tr. split; assumption.
Defined.

End ServiceShape.

(** ** Helpers: retry and case conversion *)

Module HelpersFacts.
Import Js Types Errors Eff Helpers.

(** Attempts [attempt], [attempt + 1], ... ([k] of them) with the sleeps
    between them, for the given delay and backoff factor. *)
Fixpoint schedule (dl factor : Z) (k : nat) (attempt : Z) : list RetryCall :=
  match k with
  | O => []
  | S O => [Attempt attempt]
  | S k' => Attempt attempt :: Sleep (dl * factor ^ (attempt - 1))
            :: schedule dl factor k' (attempt + 1)
  end.

Section Retry.
Context {U A : Type}.
Variable fn : Collab U A.
Variable options : RetryOptions.

Local Abbreviation W := (World U RetryCall).

Lemma retryFrom_schedule (k : nat) (attempt : Z) (lastError : thrown) (w : W) :
  (1 <= k)%nat ->
  attempt + Z.of_nat k - 1 = maxAttempts options ->
  exists n,
    (1 <= n <= k)%nat
    /\ calls (retryFrom fn options k attempt lastError w).2
       = calls w ++ schedule (delay options) (backoffFactor options) n attempt.
Proof.
  revert attempt lastError w. induction k as [|k IH]; intros attempt lastError w Hk Hlast;
    [lia|].
  cbn [retryFrom]. unfold tryCatch, call, record, lift, bind. cbn [user calls tick].
  destruct (fn (user w)) as [[err|a] u1]; cbn [user calls tick].
  - destruct (Z.eqb_spec attempt (maxAttempts options)) as [Heq|Hne]; cbn [orb].
    + exists 1%nat. unfold raise. cbn. split; [lia | reflexivity].
    + destruct (shouldRetry options err); cbn [negb].
      * unfold bind, record. cbn [user calls tick].
        match goal with |- context [retryFrom fn options k ?a ?e ?w1] =>
          destruct (IH a e w1) as (n & Hn & Hcalls); [lia | lia |] end.
        exists (S n). split; [lia|].
        rewrite Hcalls. cbn [calls]. rewrite <- !app_assoc.
        destruct n as [|n']; [lia | reflexivity].
      * exists 1%nat. unfold raise. cbn. split; [lia | reflexivity].
  - exists 1%nat. cbn. split; [lia | reflexivity].
Qed.

(** X27: with [maxAttempts >= 1] (3 when omitted), every run of [retry]
    makes [n] attempts for some [1 <= n <= maxAttempts], numbered from 1,
    and sleeps [delay * backoffFactor ^ (i - 1)] between attempt [i] and the
    next one, never after the last; with [maxAttempts] zero or negative it
    never calls [fn] and rejects with [undefined]. *)
Theorem retry_is_bounded (w : W) :
  (1 <= maxAttempts options ->
   exists n,
     (1 <= n)%nat /\ Z.of_nat n <= maxAttempts options
     /\ calls (retry fn options w).2
        = calls w ++ schedule (delay options) (backoffFactor options) n 1)
  /\ (maxAttempts options <= 0 ->
      retry fn options w = (inl (TValue VUndefined), w)).
Proof.
  split.
  - intros Hmax. unfold retry.
    destruct (retryFrom_schedule (Z.to_nat (maxAttempts options)) 1 (TValue VUndefined) w)
      as (n & Hn & Hcalls); [lia | lia |].
    exists n. split; [lia|]. split; [lia | exact Hcalls].
  - intros Hle. unfold retry.
    replace (Z.to_nat (maxAttempts options)) with 0%nat by lia.
    reflexivity.
Qed.

Lemma retryFrom_exhausts (err : thrown) (k : nat) (attempt : Z) (lastError : thrown)
    (w : W) :
  (forall u, (fn u).1 = inl err) ->
  shouldRetry options err = true ->
  (1 <= k)%nat ->
  attempt + Z.of_nat k - 1 = maxAttempts options ->
  (retryFrom fn options k attempt lastError w).1 = inl err
  /\ calls (retryFrom fn options k attempt lastError w).2
     = calls w ++ schedule (delay options) (backoffFactor options) k attempt.
Proof.
  intros Hfail Hretry. revert attempt lastError w.
  induction k as [|k IH]; intros attempt lastError w Hk Hlast; [lia|].
  cbn [retryFrom]. unfold tryCatch, call, record, lift, bind. cbn [user calls tick].
  pose proof (Hfail (user w)) as Hf.
  destruct (fn (user w)) as [[err'|a] u1]; cbn in Hf; [|discriminate].
  injection Hf as ->. cbn [user calls tick]. rewrite Hretry. cbn [negb orb].
  rewrite orb_false_r.
  destruct k as [|k'].
  - replace (attempt =? maxAttempts options) with true
      by (symmetry; apply Z.eqb_eq; lia).
    unfold raise. cbn. split; reflexivity.
  - replace (attempt =? maxAttempts options) with false
      by (symmetry; apply Z.eqb_neq; lia).
    unfold bind, record. cbn [user calls tick].
    match goal with |- context [retryFrom fn options (S k') ?a ?e ?w1] =>
      destruct (IH a e w1) as (Hres & Hcalls); [lia | lia |] end.
    rewrite Hres, Hcalls. cbn [calls]. rewrite <- !app_assoc. split; reflexivity.
Qed.

(** X28: when [fn] rejects every time with an error that [shouldRetry]
    accepts, [retry] makes exactly [maxAttempts] attempts, sleeps
    [delay * backoffFactor ^ (i - 1)] after attempt [i] (not after the
    last), and rejects with that error. *)
Theorem retry_exhausts_attempts (err : thrown) (w : W) :
  (forall u, (fn u).1 = inl err) ->
  shouldRetry options err = true ->
  1 <= maxAttempts options ->
  (retry fn options w).1 = inl err
  /\ calls (retry fn options w).2
     = calls w ++ schedule (delay options) (backoffFactor options)
                    (Z.to_nat (maxAttempts options)) 1.
Proof.
  intros Hfail Hretry Hmax. unfold retry.
  apply (retryFrom_exhausts err); [exact Hfail | exact Hretry | lia | lia].
Qed.

End Retry.

Definition alwaysDown : Collab unit unit := fun u => (inl (TError "down"), u).

Lemma retry_is_bounded_witness :
  retry alwaysDown
    {| ro_maxAttempts := Some 0; ro_delay := None;
       ro_backoffFactor := None; ro_shouldRetry := None |}
    {| user := tt; calls := []; tick := 0 |}
  = (inl (TValue VUndefined), {| user := tt; calls := []; tick := 0 |}).
Proof.
  destruct (retry_is_bounded alwaysDown
              {| ro_maxAttempts := Some 0; ro_delay := None;
                 ro_backoffFactor := None; ro_shouldRetry := None |}
              {| user := tt; calls := []; tick := 0 |}) as [_ H].
  apply H. vm_compute. discriminate.
Defined.

Lemma retry_exhausts_attempts_witness :
  calls (retry alwaysDown noRetryOptions {| user := tt; calls := []; tick := 0 |}).2
  = [Attempt 1; Sleep 1000; Attempt 2; Sleep 2000; Attempt 3].
Proof.
  destruct (retry_exhausts_attempts alwaysDown noRetryOptions (TError "down")
              {| user := tt; calls := []; tick := 0 |}) as [_ H].
  - intros u. reflexivity.
  - reflexivity.
  - vm_compute. discriminate.
  - rewrite H. reflexivity.
Defined.

(** Strings without a letter of [[A-Z]]. *)
Fixpoint noUpper (s : string) : bool :=
  match s with
  | EmptyString => true
  | String c rest => negb (isUpper c) && noUpper rest
  end.

(** Strings in which no underscore is directly followed by a letter of
    [[a-z]]. *)
Fixpoint noUnderscoreLower (s : string) : bool :=
  match s with
  | EmptyString => true
  | String c rest =>
      match rest with
      | String d _ => negb (Ascii.eqb c underscore && isLower d)
      | EmptyString => true
      end && noUnderscoreLower rest
  end.

Lemma upper_lower (c : Ascii.ascii) :
  isUpper c = true -> isLower (toLower c) = true /\ toUpper (toLower c) = c.
Proof.
  destruct c as [[] [] [] [] [] [] [] []]; vm_compute; intros H;
    try discriminate H; split; reflexivity.
Qed.

Lemma lower_upper (d : Ascii.ascii) :
  isLower d = true -> isUpper (toUpper d) = true /\ toLower (toUpper d) = d.
Proof.
  destruct d as [[] [] [] [] [] [] [] []]; vm_compute; intros H;
    try discriminate H; split; reflexivity.
Qed.

Lemma snake_of_camel_bounded (n : nat) (s : string) :
  (String.length s <= n)%nat -> noUpper s = true -> toSnakeCase (toCamelCase s) = s.
Proof.
  revert s. induction n as [|n IH]; intros s Hlen Hnu.
  - destruct s; [reflexivity | cbn in Hlen; lia].
  - destruct s as [|c [|d r]]; [reflexivity | |].
    + cbn in Hnu |- *. apply andb_true_iff in Hnu as [Hc _].
      apply negb_true_iff in Hc. rewrite Hc. reflexivity.
    + change (toCamelCase (String c (String d r)))
        with (if Ascii.eqb c underscore && isLower d
              then String (toUpper d) (toCamelCase r)
              else String c (toCamelCase (String d r))).
      cbn [noUpper] in Hnu.
      apply andb_true_iff in Hnu as [Hc Hrest]. apply negb_true_iff in Hc.
      destruct (Ascii.eqb c underscore && isLower d) eqn:Hmatch.
      * apply andb_true_iff in Hmatch as [Hus Hlow]. apply Ascii.eqb_eq in Hus.
        destruct (lower_upper d Hlow) as [Hup Hback].
        cbn [toSnakeCase]. rewrite Hup, Hback.
        cbn [noUpper] in Hrest. apply andb_true_iff in Hrest as [_ Hr].
        rewrite IH; [subst c; reflexivity | cbn in Hlen; lia | exact Hr].
      * cbn [toSnakeCase]. rewrite Hc.
        rewrite IH; [reflexivity | cbn in Hlen |- *; lia | exact Hrest].
Qed.

Lemma snake_head (r : string) :
  match toSnakeCase r, r with
  | String d' _, String d _ => d' = (if isUpper d then underscore else d)
  | EmptyString, EmptyString => True
  | _, _ => False
  end.
Proof. destruct r as [|d r]; cbn; [exact I|]. destruct (isUpper d); reflexivity. Qed.

Lemma camel_of_snake (s : string) :
  noUnderscoreLower s = true -> toCamelCase (toSnakeCase s) = s.
Proof.
  induction s as [|c r IH]; intros Hst; [reflexivity|].
  cbn [noUnderscoreLower] in Hst. apply andb_true_iff in Hst as [Hhead Hrest].
  specialize (IH Hrest). cbn [toSnakeCase].
  destruct (isUpper c) eqn:Hup.
  - destruct (upper_lower c Hup) as [Hlow Hback].
    cbn [toCamelCase]. rewrite Ascii.eqb_refl, Hlow. cbn [andb].
    rewrite Hback, IH. reflexivity.
  - pose proof (snake_head r) as Hsh.
    destruct (toSnakeCase r) as [|d' r'] eqn:Hsn.
    + destruct r; [reflexivity | contradiction].
    + destruct r as [|d r1]; [contradiction|].
      change (toCamelCase (String c (String d' r')))
        with (if Ascii.eqb c underscore && isLower d'
              then String (toUpper d') (toCamelCase r')
              else String c (toCamelCase (String d' r'))).
      assert (Hno : Ascii.eqb c underscore && isLower d' = false).
      { subst d'. destruct (isUpper d) eqn:Hd.
        - replace (isLower underscore) with false by reflexivity. apply andb_false_r.
        - apply negb_true_iff in Hhead. exact Hhead. }
      rewrite Hno, IH. reflexivity.
Qed.

(** X29: the two case conversions undo each other on the names they are
    meant for: [toSnakeCase (toCamelCase s) = s] for every [s] without a
    capital letter, and [toCamelCase (toSnakeCase s) = s] for every [s] in
    which no underscore is directly followed by a small letter. *)
Theorem case_conversion_round_trips (s : string) :
  (noUpper s = true -> toSnakeCase (toCamelCase s) = s)
  /\ (noUnderscoreLower s = true -> toCamelCase (toSnakeCase s) = s).
Proof.
  split.
  - apply (snake_of_camel_bounded (String.length s)). lia.
  - apply camel_of_snake.
Qed.

Lemma case_conversion_round_trips_witness :
  toSnakeCase (toCamelCase "created_at") = "created_at"
  /\ toCamelCase (toSnakeCase "createdAt") = "createdAt".
Proof.
  split.
  - apply (case_conversion_round_trips "created_at"). reflexivity.
  - apply (case_conversion_round_trips "createdAt"). reflexivity.
Defined.

End HelpersFacts.

(** ** Filters: what a builder produces, and soft delete on top of it *)

Module FiltersFacts.
Import Js Types Filters Repository.





End FiltersFacts.
